(** * goja value layer: a shallow embedding of [value.go]

    The development follows the layout of the Go file: the value kinds,
    then the methods of [valueInt], [valueProperty], [valueFloat] and
    [valueUnresolved], each under the name it has in the source
    ([valueInt.SameAs] is [valueInt_SameAs], and so on).

    Conventions.
    - Go's [int], [int64], [uint32], [uint64] are [Z] with the wrap-around of
      each conversion written out.  The file only builds where [int] has
      64 bits ([valueFloat.ToInt] returns [math.MaxInt64] as an [int]).
    - A [float64] is an IEEE-754 binary64 datum: signed zero, signed
      infinity, NaN with its payload, or a finite number [m * 2^e].
      Comparison and rounding come from the standard library's
      [SpecFloat] at precision 53 and [emax] 1024.
    - A Go pointer is an address ([positive]); the slots behind
      [*valueProperty] live in a heap ([gmap]).
    - A Go panic is the [Raise] outcome of the [outcome] type. *)

From Stdlib Require Import ZArith Bool String List Lia.
From Stdlib Require Import Floats.SpecFloat.
From stdpp Require Import base option gmap.

Local Open Scope Z_scope.

(** ** Machine integers *)

Module Int.

Definition int64_range (z : Z) : Prop := - 2 ^ 63 <= z < 2 ^ 63.

(** Conversion to a signed 64-bit type ([int], [int64]). *)
Definition to_int64 (z : Z) : Z := (z + 2 ^ 63) mod 2 ^ 64 - 2 ^ 63.

(** Conversion to [uint64]. *)
Definition to_uint64 (z : Z) : Z := z mod 2 ^ 64.

(** Conversion to [uint32]. *)
Definition to_uint32 (z : Z) : Z := z mod 2 ^ 32.

(** Conversion to [int32]. *)
Definition to_int32 (z : Z) : Z := (z + 2 ^ 31) mod 2 ^ 32 - 2 ^ 31.

Definition MaxInt32 : Z := 2 ^ 31 - 1.
Definition MinInt32 : Z := - 2 ^ 31.
Definition MaxUint32 : Z := 2 ^ 32 - 1.
Definition MaxInt64 : Z := 2 ^ 63 - 1.
Definition MinInt64 : Z := - 2 ^ 63.

End Int.

(** ** IEEE-754 binary64 *)

Module F64.

Definition prec : Z := 53.
Definition emax : Z := 1024.

(** The four classes of a double.  A NaN keeps its sign and its
    52-bit payload because [math.Float64bits] exposes them. *)
Inductive float64 : Type :=
| F_zero (s : bool)
| F_inf (s : bool)
| F_nan (s : bool) (payload : positive)
| F_finite (s : bool) (m : positive) (e : Z).

Definition valid (f : float64) : bool :=
  match f with
  | F_finite _ m e => bounded prec emax m e
  | F_nan _ pl => Z.pos pl <? 2 ^ 52
  | _ => true
  end.

Definition to_SF (f : float64) : spec_float :=
  match f with
  | F_zero s => S754_zero s
  | F_inf s => S754_infinity s
  | F_nan _ _ => S754_nan
  | F_finite s m e => S754_finite s m e
  end.

(** [math.NaN()] is the quiet NaN 0x7FF8000000000001. *)
Definition NaN : float64 := F_nan false (2 ^ 51 + 1).

Definition of_SF (x : spec_float) : float64 :=
  match x with
  | S754_zero s => F_zero s
  | S754_infinity s => F_inf s
  | S754_nan => NaN
  | S754_finite s m e => F_finite s m e
  end.

(** Go's [==] on two [float64]. *)
Definition eqb (f g : float64) : bool := SFeqb (to_SF f) (to_SF g).

(** The conversion [float64(i)] of an integer: round to nearest, ties
    to even. *)
Definition of_int (i : Z) : float64 :=
  of_SF (binary_normalize prec emax i 0 false).

Definition IsNaN (f : float64) : bool :=
  match f with F_nan _ _ => true | _ => false end.

(** [math.IsInf(f, sign)] for [sign > 0] ([true]) and [sign < 0]. *)
Definition IsInf (f : float64) (positive_sign : bool) : bool :=
  match f with
  | F_inf s => if positive_sign then negb s else s
  | _ => false
  end.

Definition Signbit (f : float64) : bool :=
  match f with
  | F_zero s | F_inf s | F_nan s _ | F_finite s _ _ => s
  end.

Definition sign_bits (s : bool) : Z := if s then Z.shiftl 1 63 else 0.

(** [math.Float64bits]: sign, 11 bits of biased exponent, 52 bits of
    fraction. *)
Definition Float64bits (f : float64) : Z :=
  match f with
  | F_zero s => sign_bits s
  | F_inf s => Z.lor (sign_bits s) (Z.shiftl 2047 52)
  | F_nan s pl => Z.lor (sign_bits s) (Z.lor (Z.shiftl 2047 52) (Z.pos pl))
  | F_finite s m e =>
      if Z.pos m <? 2 ^ 52
      then Z.lor (sign_bits s) (Z.pos m)
      else Z.lor (sign_bits s)
             (Z.lor (Z.shiftl (e + 1075) 52) (Z.pos m - 2 ^ 52))
  end.

Definition zero : float64 := F_zero false.
Definition Inf (positive_sign : bool) : float64 := F_inf (negb positive_sign).

(** [math.Float64frombits(0 | (1 << 63))] *)
Definition negativeZero : float64 := F_zero true.

(** The integer part of a finite double, rounded toward zero. *)
Definition trunc (f : float64) : Z :=
  match f with
  | F_finite s m e =>
      let a := if 0 <=? e then Z.pos m * 2 ^ e else Z.pos m / 2 ^ (- e) in
      if s then - a else a
  | _ => 0
  end.

(** Whether the double [f] and the integer [n] denote the same real
    number. *)
Definition same_number (f : float64) (n : Z) : bool :=
  match f with
  | F_zero _ => n =? 0
  | F_finite s m e =>
      let v := if s then Z.neg m else Z.pos m in
      if 0 <=? e then n =? v * 2 ^ e else n * 2 ^ (- e) =? v
  | _ => false
  end.

End F64.

Import F64.

(** ** Outcomes of a call

    A Go call returns or panics.  [OutOfFuel] is not a Go outcome: it is
    what the bounded recursion of [Equals] answers when the bound given
    to it is used up. *)

Inductive panic : Type :=
| referenceError (name : string)
| typeError (msg : string)
| panicString (msg : string)
| nilDereference.

Inductive outcome (A : Type) : Type :=
| Ret (a : A)
| Raise (e : panic)
| OutOfFuel.

Arguments Ret {A} a.
Arguments Raise {A} e.
Arguments OutOfFuel {A}.

#[export] Instance outcome_ret : MRet outcome := fun A a => Ret a.
#[export] Instance outcome_bind : MBind outcome := fun A B k m =>
  match m with
  | Ret a => k a
  | Raise e => Raise e
  | OutOfFuel => OutOfFuel
  end.

(** ** Value kinds

    [Value] is the Go interface: [Value_nil] is the nil interface value,
    every other constructor is one of the implementing types declared in
    the file.  [*Symbol], [*Object] and [*valueProperty] are pointers.
    The string kind ([valueString]) is an interface whose implementations
    live in other files and is not part of this model, so the
    [valueString] case of a type switch has no counterpart below. *)

Definition ptr : Type := positive.

Inductive Value : Type :=
| Value_nil
| valueInt (i : Z)
| valueInt64 (i : Z)
| valueFloat (f : float64)
| valueBool (b : bool)
| valueNull
| valueUndefined
| Symbol_ptr (s : ptr)
| Object_ptr (o : ptr)
| valueProperty_ptr (p : ptr)
| valueUnresolved (r : ptr) (ref : string).

Definition _undefined : Value := valueUndefined.
Definition _negativeZero : Value := valueFloat negativeZero.

Record valueProperty : Type := mkProperty {
  value : Value;
  writable : bool;
  configurable : bool;
  enumerable : bool;
  accessor : bool;
  getterFunc : option ptr;
  setterFunc : option ptr
}.

Definition Context : Type := positive.

Record FunctionCall : Type := mkFunctionCall {
  ctx : Context;
  This : Value;
  Arguments : list Value
}.

(** ** The heap and the monad of calls that read or write it *)

Definition Heap : Type := gmap ptr valueProperty.

Definition M (A : Type) : Type := Heap -> outcome (A * Heap).

#[export] Instance M_ret : MRet M := fun A a σ => Ret (a, σ).
#[export] Instance M_bind : MBind M := fun A B k m σ =>
  match m σ with
  | Ret (a, σ') => k a σ'
  | Raise e => Raise e
  | OutOfFuel => OutOfFuel
  end.

Definition raise {A} (e : panic) : M A := fun _ => Raise e.
Definition out_of_fuel {A} : M A := fun _ => OutOfFuel.

(** Reading through a [*valueProperty]; a pointer that leads nowhere is
    the nil-pointer panic. *)
Definition deref (p : ptr) : M valueProperty := fun σ =>
  match σ !! p with
  | Some pr => Ret (pr, σ)
  | None => Raise nilDereference
  end.

Definition store (p : ptr) (pr : valueProperty) : M unit := fun σ =>
  Ret (tt, <[p := pr]> σ).

(** ** Sizes ([unsafe.Sizeof] on a 64-bit target) *)

Definition SizeBool : Z := 1.
Definition SizeNumber : Z := 8.
Definition SizeString : Z := 16.

(** ** Collaborators

    What the methods below call and [value.go] does not define is taken
    as a parameter of the section:
    - [toPrimitive o] is the method [toPrimitive] of [Object];
    - [assertCallable o] is [o.self.assertCallable()]: the function
      behind a callable object, [None] for the nil function it returns
      otherwise;
    - [vm_ctx o] is [o.runtime.vm.ctx];
    - [uint32_unrepresentable f] and [int32_unrepresentable f] are the
      results of the conversions [uint32(f)] and [int32(f)] where the
      truncated [f] does not fit the target type, which Go leaves to the
      implementation. *)

Section Methods.

Variable toPrimitive : ptr -> M Value.
Variable assertCallable : ptr -> option (FunctionCall -> M Value).
Variable vm_ctx : ptr -> Context.
Variable uint32_unrepresentable : float64 -> Z.
Variable int32_unrepresentable : float64 -> Z.

(** *** valueBool *)

Definition valueBool_ToInteger (b : bool) : Z := if b then 1 else 0.

Definition valueBool_ToFloat (b : bool) : float64 :=
  if b then of_int 1 else zero.

(** *** valueInt *)

Definition valueInt_ToInteger (i : Z) : Z := Int.to_int64 i.
Definition valueInt_ToInt32 (i : Z) : Z := Int.to_int32 i.
Definition valueInt_ToUInt32 (i : Z) : Z := Int.to_uint32 i.
Definition valueInt_ToFloat (i : Z) : float64 := of_int i.
Definition valueInt_ToBoolean (i : Z) : bool := negb (i =? 0).

(** [i == other] compares a [valueInt] with an interface value: it
    holds when the dynamic type of [other] is [valueInt] and the two
    integers are equal. *)
Definition valueInt_SameAs (i : Z) (other : Value) : bool :=
  match other with
  | valueInt o => i =? o
  | _ => false
  end.

Fixpoint valueInt_Equals (fuel : nat) (i : Z) (other : Value) : M bool :=
  match other with
  | valueInt o => mret (i =? o)
  | valueInt64 o => mret (i =? Int.to_int64 o)
  | valueFloat o => mret (eqb (of_int i) o)
  | valueBool o => mret (Int.to_int64 i =? valueBool_ToInteger o)
  | Object_ptr o =>
      match fuel with
      | O => out_of_fuel
      | S fuel' => v ← toPrimitive o; valueInt_Equals fuel' i v
      end
  | _ => mret false
  end.

Definition valueInt_StrictEquals (i : Z) (other : Value) : bool :=
  match other with
  | valueInt o => i =? o
  | valueInt64 o => i =? Int.to_int64 o
  | valueFloat o => eqb (of_int i) o
  | _ => false
  end.

Definition valueInt_hash (i : Z) : Z := Int.to_uint64 i.

(** Modelled from the spec: the methods of [valueInt64] (BigInteger) are
    in another file of the repository.  Section 4.4 has the hash
    computed on the numeric value and section 3 has [BigInteger(n)] hash
    as [Integer(n)] does. *)
Definition valueInt64_hash (i : Z) : Z := Int.to_uint64 i.

(** *** valueFloat *)

Definition valueFloat_ToInt32 (f : float64) : Z :=
  if IsNaN f then 0
  else if IsInf f true then Int.to_int32 Int.MaxInt32
  else if IsInf f false then Int.to_int32 Int.MinInt32
  else
    let t := trunc f in
    if (Int.MinInt32 <=? t) && (t <=? Int.MaxInt32) then t
    else int32_unrepresentable f.

Definition valueFloat_ToUInt32 (f : float64) : Z :=
  if IsNaN f then 0
  else if IsInf f true then Int.to_uint32 Int.MaxInt32
  else if IsInf f false then 0
  else
    let t := trunc f in
    if (0 <=? t) && (t <=? Int.MaxUint32) then t
    else uint32_unrepresentable f.

Definition valueFloat_ToBoolean (f : float64) : bool :=
  negb (eqb f zero) && negb (IsNaN f).

Definition valueFloat_SameAs (f : float64) (other : Value) : bool :=
  match other with
  | valueFloat o =>
      let this := f in
      let o1 := o in
      if IsNaN this && IsNaN o1 then true
      else
        let ret := eqb this o1 in
        if ret && eqb this zero
        then Bool.eqb (Signbit this) (Signbit o1)
        else ret
  | valueInt o =>
      let this := f in
      let ret := eqb this (of_int o) in
      if ret && eqb this zero then negb (Signbit this) else ret
  | valueInt64 o =>
      let this := f in
      let ret := eqb this (of_int o) in
      if ret && eqb this zero then negb (Signbit this) else ret
  | _ => false
  end.

Fixpoint valueFloat_Equals (fuel : nat) (f : float64) (other : Value)
  : M bool :=
  match other with
  | valueFloat o => mret (eqb f o)
  | valueInt o => mret (eqb f (of_int o))
  | valueInt64 o => mret (eqb f (of_int o))
  | valueBool o => mret (eqb f (valueBool_ToFloat o))
  | Object_ptr o =>
      match fuel with
      | O => out_of_fuel
      | S fuel' => v ← toPrimitive o; valueFloat_Equals fuel' f v
      end
  | _ => mret false
  end.

Definition valueFloat_StrictEquals (f : float64) (other : Value) : bool :=
  match other with
  | valueFloat o => eqb f o
  | valueInt o => eqb f (of_int o)
  | valueInt64 o => eqb f (of_int o)
  | _ => false
  end.

(** [f == _negativeZero] compares [f] with an interface value holding
    the [valueFloat] -0.0: same dynamic type, then [==] on the two
    doubles, which does not tell -0.0 from +0.0. *)
Definition valueFloat_hash (f : float64) : Z :=
  if eqb f negativeZero then 0 else Float64bits f.

(** *** valueProperty *)

(** Modelled from the spec: the constant [stringEmpty] is declared with
    the string kinds in another file; section 4.5 has the string
    coercion of a slot answer the empty string. *)
Definition stringEmpty : string := EmptyString.

Definition valueProperty_ToInteger (p : ptr) : Z := 0.
Definition valueProperty_toString (p : ptr) : string := stringEmpty.
Definition valueProperty_string (p : ptr) : string := EmptyString.
Definition valueProperty_ToString (p : ptr) : Value := _undefined.
Definition valueProperty_String (p : ptr) : string := EmptyString.
Definition valueProperty_ToFloat (p : ptr) : float64 := NaN.
Definition valueProperty_ToBoolean (p : ptr) : bool := false.
Definition valueProperty_ToObject (p : ptr) : option ptr := None.
Definition valueProperty_ToNumber (p : ptr) : Value := Value_nil.

Definition valueProperty_isWritable (p : ptr) : M bool :=
  pr ← deref p;
  mret (writable pr || bool_decide (setterFunc pr ≠ None)).

Definition valueProperty_get (p : ptr) (this : Value) : M Value :=
  pr ← deref p;
  match getterFunc pr with
  | None =>
      match value pr with
      | Value_nil => mret _undefined
      | v => mret v
      end
  | Some g =>
      match assertCallable g with
      | Some call =>
          call {| ctx := vm_ctx g; This := this; Arguments := [] |}
      | None => raise nilDereference
      end
  end.

Definition valueProperty_set (p : ptr) (this v : Value) : M unit :=
  pr ← deref p;
  match setterFunc pr with
  | None =>
      store p {| value := v;
                 writable := writable pr;
                 configurable := configurable pr;
                 enumerable := enumerable pr;
                 accessor := accessor pr;
                 getterFunc := getterFunc pr;
                 setterFunc := setterFunc pr |}
  | Some s =>
      match assertCallable s with
      | Some call =>
          call {| ctx := vm_ctx s; This := this; Arguments := [v] |};;
          mret tt
      | None => raise nilDereference
      end
  end.

Definition valueProperty_SameAs (p : ptr) (other : Value) : bool :=
  match other with
  | valueProperty_ptr otherProp => bool_decide (p = otherProp)
  | _ => false
  end.

Definition valueProperty_Equals (p : ptr) (other : Value) : bool := false.
Definition valueProperty_StrictEquals (p : ptr) (other : Value) : bool :=
  false.

(** What [Export] hands to Go code, as far as this file produces it. *)
Inductive exported : Type :=
| export_nil
| export_int64 (i : Z)
| export_float64 (f : float64)
| export_bool (b : bool).

Inductive reflectType : Type :=
| reflectTypeNil
| reflectTypeInt
| reflectTypeFloat
| reflectTypeBool.

Definition valueProperty_Export (p : ptr) : outcome exported :=
  Raise (panicString "Cannot export valueProperty").

Definition valueProperty_ExportType (p : ptr) : outcome reflectType :=
  Raise (panicString "Cannot export valueProperty").

Definition valueProperty_hash (p : ptr) : outcome Z :=
  Raise (panicString "valueProperty should never be used in maps or sets").

Definition valueProperty_ToInt (p : ptr) : Z := 0.
Definition valueProperty_ToInt32 (p : ptr) : Z := 0.
Definition valueProperty_ToUInt32 (p : ptr) : Z := 0.
Definition valueProperty_ToInt64 (p : ptr) : Z := 0.

(** *** valueUnresolved *)

(** Modelled from the spec: the method [throwReferenceError] of
    [Runtime] is in another file; section 7 has it raise a reference
    error that carries the unresolved name. *)
Definition throwReferenceError (r : ptr) (name : string) : outcome unit :=
  Raise (referenceError name).

Section Unresolved.

Variable r : ptr.
Variable ref : string.

Definition valueUnresolved_throw : outcome unit :=
  throwReferenceError r ref.

(** Every method below but three has the shape
    [o.throw(); return zero], written [throw_then zero]. *)
Definition throw_then {A} (zero : A) : outcome A :=
  valueUnresolved_throw;; mret zero.

Definition valueUnresolved_ToInteger : outcome Z := throw_then 0.
Definition valueUnresolved_IsNumber : outcome bool := mret false.
Definition valueUnresolved_IsObject : outcome bool := mret false.
Definition valueUnresolved_toString : outcome (option string) :=
  throw_then None.
Definition valueUnresolved_string : outcome string :=
  throw_then EmptyString.
Definition valueUnresolved_ToString : outcome Value :=
  throw_then Value_nil.
Definition valueUnresolved_String : outcome string :=
  throw_then EmptyString.
Definition valueUnresolved_ToFloat : outcome float64 := throw_then zero.
Definition valueUnresolved_ToBoolean : outcome bool := throw_then false.
Definition valueUnresolved_ToObject : outcome (option ptr) :=
  throw_then None.
Definition valueUnresolved_ToNumber : outcome Value :=
  throw_then Value_nil.
Definition valueUnresolved_SameAs (other : Value) : outcome bool :=
  throw_then false.
Definition valueUnresolved_Equals (other : Value) : outcome bool :=
  throw_then false.
Definition valueUnresolved_StrictEquals (other : Value) : outcome bool :=
  throw_then false.
Definition valueUnresolved_baseObject : outcome (option ptr) :=
  throw_then None.
Definition valueUnresolved_Export : outcome exported :=
  throw_then export_nil.
Definition valueUnresolved_ExportType : outcome (option reflectType) :=
  throw_then None.
Definition valueUnresolved_hash : outcome Z := throw_then 0.

Definition valueUnresolved_MemUsage
  : outcome (Z * Z * option string) :=
  let len := Z.of_nat (String.length ref) in
  mret (Int.to_uint64 len,
        Int.to_uint64 (Int.to_uint64 len + SizeString),
        None).

Definition valueUnresolved_ToInt : outcome Z := throw_then 0.
Definition valueUnresolved_ToInt32 : outcome Z := throw_then 0.
Definition valueUnresolved_ToUInt32 : outcome Z := throw_then 0.
Definition valueUnresolved_ToInt64 : outcome Z := throw_then 0.
Definition valueUnresolved_assertInt : outcome (Z * bool) :=
  throw_then (0, false).
Definition valueUnresolved_assertUInt32 : outcome (Z * bool) :=
  throw_then (0, false).
Definition valueUnresolved_assertInt32 : outcome (Z * bool) :=
  throw_then (0, false).
Definition valueUnresolved_assertInt64 : outcome (Z * bool) :=
  throw_then (0, false).
Definition valueUnresolved_assertFloat : outcome (float64 * bool) :=
  throw_then (zero, false).
Definition valueUnresolved_assertString
  : outcome (option string * bool) :=
  throw_then (None, false).

End Unresolved.

End Methods.

(** ** Dispatch on the numeric receivers

    [a.StrictEquals(b)], [a.SameAs(b)] and [a.hash()] select the method by
    the dynamic type of [a].  The dispatchers below cover the numeric
    receivers; they answer [None] for a receiver whose method they do not
    cover. *)

Definition numeric_StrictEquals (a b : Value) : option bool :=
  match a with
  | valueInt i => Some (valueInt_StrictEquals i b)
  | valueFloat f => Some (valueFloat_StrictEquals f b)
  | _ => None
  end.

Definition numeric_SameAs (a b : Value) : option bool :=
  match a with
  | valueInt i => Some (valueInt_SameAs i b)
  | valueFloat f => Some (valueFloat_SameAs f b)
  | _ => None
  end.

Definition numeric_hash (a : Value) : option Z :=
  match a with
  | valueInt i => Some (valueInt_hash i)
  | valueInt64 i => Some (valueInt64_hash i)
  | valueFloat f => Some (valueFloat_hash f)
  | _ => None
  end.

(** Both values are doubles, or both are exact integers. *)
Definition same_family (a b : Value) : bool :=
  match a, b with
  | valueFloat _, valueFloat _ => true
  | (valueInt _ | valueInt64 _), (valueInt _ | valueInt64 _) => true
  | _, _ => false
  end.

Definition is_zero (a : Value) : bool :=
  match a with
  | valueInt i | valueInt64 i => i =? 0
  | valueFloat (F_zero _) => true
  | _ => false
  end.

(** ** Concrete slots and callables, for the examples *)

(** A callable that answers its [This]. *)
Definition answer_This (o : ptr) : option (FunctionCall -> M Value) :=
  Some (fun call => mret (This call)).

Definition no_callable (o : ptr) : option (FunctionCall -> M Value) := None.

Definition the_ctx (o : ptr) : Context := 1%positive.

(** An accessor slot with a getter, the object at address 2. *)
Definition getter_slot : valueProperty :=
  {| value := Value_nil; writable := false; configurable := true;
     enumerable := true; accessor := true;
     getterFunc := Some 2%positive; setterFunc := None |}.

(** A read-only data slot holding Integer(1). *)
Definition readonly_slot : valueProperty :=
  {| value := valueInt 1; writable := false; configurable := true;
     enumerable := true; accessor := false;
     getterFunc := None; setterFunc := None |}.

(** Modelled from the spec: the object model that builds and rewrites
    slots is in other files.  Section 4.5 has a slot hold a stored value
    or a getter/setter pair, the pair excluding a stored value in
    accessor mode: a slot in accessor mode stores no value, and a slot
    not in accessor mode has neither getter nor setter. *)
Definition data_model_slot (pr : valueProperty) : Prop :=
  (accessor pr = true -> value pr = Value_nil)
  /\ (accessor pr = false -> getterFunc pr = None /\ setterFunc pr = None).

(** An accessor slot with neither getter nor setter. *)
Definition bare_accessor_slot : valueProperty :=
  {| value := Value_nil; writable := false; configurable := true;
     enumerable := true; accessor := true;
     getterFunc := None; setterFunc := None |}.

(** ** The remaining methods of the file *)

(** Go's [<=] on two [float64]. *)
Definition float_leb (f g : float64) : bool := SFleb (to_SF f) (to_SF g).

(** The bounds [math.MaxInt64] and [math.MinInt64] as they enter a
    comparison with a [float64]: converted to the nearest double, 2^63
    and -2^63. *)
Definition float_MaxInt64 : float64 := of_int Int.MaxInt64.
Definition float_MinInt64 : float64 := of_int Int.MinInt64.

Section Conversions.

(** [int64_unrepresentable f] is the result of the conversion [int64(f)]
    where the truncated [f] does not fit an [int64], which Go leaves to
    the implementation. *)
Variable int64_unrepresentable : float64 -> Z.

Definition int64_of_float (f : float64) : Z :=
  let t := trunc f in
  if (Int.MinInt64 <=? t) && (t <=? Int.MaxInt64) then t
  else int64_unrepresentable f.

Definition floatToIntClip (n : float64) : Z :=
  if IsNaN n then 0
  else if float_leb float_MaxInt64 n then Int.MaxInt64
  else if float_leb n float_MinInt64 then Int.MinInt64
  else int64_of_float n.

Definition valueFloat_ToInt (f : float64) : Z :=
  if IsNaN f then 0
  else if IsInf f true then Int.MaxInt64
  else if IsInf f false then Int.MinInt64
  else int64_of_float f.

Definition valueFloat_ToInt64 (f : float64) : Z :=
  if IsNaN f then 0
  else if IsInf f true then Int.to_int64 Int.MaxInt64
  else if IsInf f false then Int.to_int64 Int.MinInt64
  else int64_of_float f.

Definition valueFloat_ToInteger (f : float64) : Z := floatToIntClip f.

End Conversions.

(** *** valueBool *)

Definition valueBool_ToInt32 (b : bool) : Z := if b then 1 else 0.
Definition valueBool_ToUInt32 (b : bool) : Z := if b then 1 else 0.
Definition valueBool_ToInt64 (b : bool) : Z := if b then 1 else 0.
Definition valueBool_ToBoolean (b : bool) : bool := b.

Definition valueBool_ToNumber (b : bool) : Value :=
  if b then valueInt 1 else valueInt 0.

Definition valueBool_SameAs (b : bool) (other : Value) : bool :=
  match other with
  | valueBool o => Bool.eqb b o
  | _ => false
  end.

Definition valueBool_StrictEquals (b : bool) (other : Value) : bool :=
  match other with
  | valueBool o => Bool.eqb b o
  | _ => false
  end.

(** *** valueNull and valueUndefined

    [valueUndefined] embeds [valueNull]: the methods it does not define
    are those of [valueNull]. *)

Definition valueNull_ToInteger : Z := 0.
Definition valueNull_ToInt32 : Z := 0.
Definition valueNull_ToUInt32 : Z := 0.
Definition valueNull_ToBoolean : bool := false.
Definition valueNull_ToFloat : float64 := zero.

Definition valueNull_SameAs (other : Value) : bool :=
  match other with
  | valueNull => true
  | _ => false
  end.

Definition valueNull_Equals (other : Value) : bool :=
  match other with
  | valueUndefined | valueNull => true
  | _ => false
  end.

Definition valueNull_StrictEquals (other : Value) : bool :=
  match other with
  | valueNull => true
  | _ => false
  end.

Definition valueUndefined_String : string := "undefined".
Definition valueUndefined_ToNumber : Value := valueFloat NaN.
Definition valueUndefined_ToFloat : float64 := NaN.
Definition valueUndefined_ToBoolean : bool := valueNull_ToBoolean.

Definition valueUndefined_SameAs (other : Value) : bool :=
  match other with
  | valueUndefined => true
  | _ => false
  end.

Definition valueUndefined_StrictEquals (other : Value) : bool :=
  match other with
  | valueUndefined => true
  | _ => false
  end.

Definition valueUndefined_Equals (other : Value) : bool :=
  valueNull_Equals other.

(** *** Symbol *)

Section Symbols.

Variable toPrimitive : ptr -> M Value.

Definition Symbol_SameAs (s : ptr) (other : Value) : bool :=
  match other with
  | Symbol_ptr s1 => bool_decide (s = s1)
  | _ => false
  end.

Fixpoint Symbol_Equals (fuel : nat) (s : ptr) (o : Value) : M bool :=
  match o with
  | Object_ptr o' =>
      match fuel with
      | O => out_of_fuel
      | S fuel' => v ← toPrimitive o'; Symbol_Equals fuel' s v
      end
  | _ => mret (Symbol_SameAs s o)
  end.

Definition Symbol_StrictEquals (s : ptr) (o : Value) : bool :=
  Symbol_SameAs s o.

End Symbols.

(** *** Object *)

Definition Object_SameAs (o : ptr) (other : Value) : bool :=
  match other with
  | Object_ptr other' => bool_decide (o = other')
  | _ => false
  end.

Definition Object_ToBoolean (o : ptr) : bool := true.

(** *** The tables of small integers

    [init] fills the two tables of 256 entries, slot [i] with the
    integer [i - 128]. *)

Definition init_intCache : list Value :=
  foldl (fun cache i => <[i := valueInt (Z.of_nat i - 128)]> cache)
        (replicate 256 Value_nil) (seq 0 256).

Definition init_int64Cache : list Value :=
  foldl (fun cache i => <[i := valueInt64 (Z.of_nat i - 128)]> cache)
        (replicate 256 Value_nil) (seq 0 256).

(** ** Operand classes used in the statements *)

Definition numeric_operand (v : Value) : bool :=
  match v with
  | valueInt _ | valueInt64 _ | valueFloat _ => true
  | _ => false
  end.

Definition is_Object (v : Value) : bool :=
  match v with
  | Object_ptr _ => true
  | _ => false
  end.

(** The clamp of an integer to the [int64] range. *)
Definition clamp_int64 (z : Z) : Z :=
  Z.max Int.MinInt64 (Z.min Int.MaxInt64 z).

(** A callable that stores its first argument in the slot at address 1
    and answers Undefined. *)
Definition store_argument (o : ptr) : option (FunctionCall -> M Value) :=
  Some (fun call σ =>
          Ret (valueUndefined,
               <[1%positive :=
                   {| value := default Value_nil (head (Arguments call));
                      writable := true; configurable := true;
                      enumerable := true; accessor := false;
                      getterFunc := None; setterFunc := None |}]> σ)).

(** A read-only accessor slot with the object at address 3 as setter. *)
Definition setter_slot : valueProperty :=
  {| value := Value_nil; writable := false; configurable := true;
     enumerable := true; accessor := true;
     getterFunc := None; setterFunc := Some 3%positive |}.

(** A collaborator that reduces every object to Integer(5). *)
Definition primitive_five (o : ptr) : M Value := mret (valueInt 5).

(** A collaborator that reduces every object to the symbol at address 7. *)
Definition primitive_symbol (o : ptr) : M Value := mret (Symbol_ptr 7%positive).

(** *** Memory accounting of a slot

    [MemUsage] threads the accounting context [*MemUsageContext] through
    the calls it makes.  The accounting of a value of any kind and of an
    object are the dynamic calls [p.value.MemUsage(ctx)] and
    [p.getterFunc.MemUsage(ctx)], taken as parameters; an [error] is its
    message. *)

Definition SizeEmptyStruct : Z := 8.

Section Accounting.

Variable MemUsageContext : Type.

Definition usage : Type := (Z * Z * option string)%type.
Definition Acc (A : Type) : Type := MemUsageContext -> A * MemUsageContext.

Variable Value_MemUsage : Value -> Acc usage.
Variable Object_MemUsage : ptr -> Acc usage.

(** One [if x != nil { inc, newInc, err := x.MemUsage(ctx); ... }] block:
    the two sums after it, and the error that makes the method return
    at once. *)
Definition account (visit : option (Acc usage)) (memUsage newMemUsage : Z)
  : Acc (Z * Z * option string) :=
  fun c =>
    match visit with
    | None => ((memUsage, newMemUsage, None), c)
    | Some call =>
        let '((inc, newInc, err), c') := call c in
        ((Int.to_uint64 (memUsage + inc),
          Int.to_uint64 (newMemUsage + newInc), err), c')
    end.

Definition valueProperty_MemUsage (p : option valueProperty) : Acc usage :=
  fun c =>
    match p with
    | None => ((SizeEmptyStruct, SizeEmptyStruct, None), c)
    | Some pr =>
        let visit_value :=
          match value pr with
          | Value_nil => None
          | v => Some (Value_MemUsage v)
          end in
        let '((memUsage, newMemUsage, err), c1) := account visit_value 0 0 c in
        match err with
        | Some e => ((memUsage, newMemUsage, Some e), c1)
        | None =>
            let '((memUsage, newMemUsage, err), c2) :=
              account (Object_MemUsage <$> getterFunc pr)
                      memUsage newMemUsage c1 in
            match err with
            | Some e => ((memUsage, newMemUsage, Some e), c2)
            | None =>
                let '((memUsage, newMemUsage, err), c3) :=
                  account (Object_MemUsage <$> setterFunc pr)
                          memUsage newMemUsage c2 in
                match err with
                | Some e => ((memUsage, newMemUsage, Some e), c3)
                | None => ((memUsage, newMemUsage, None), c3)
                end
            end
        end
    end.

End Accounting.

(** An accounting that charges 8 and 16 for every value and fails on
    every object; its context counts the calls made. *)
Definition charge_value (v : Value) : Acc nat usage :=
  fun c => ((8, 16, None), S c).

Definition fail_object (o : ptr) : Acc nat usage :=
  fun c => ((1, 2, Some "object"%string), S c).

(** A data slot whose getter and setter fields are set as well. *)
Definition full_slot : valueProperty :=
  {| value := valueInt 1; writable := true; configurable := true;
     enumerable := true; accessor := false;
     getterFunc := Some 2%positive; setterFunc := Some 3%positive |}.

(** ** Decoding a bit pattern

    [math.Float64frombits], which the file uses to build -0.0: the
    double whose sign is bit 63, biased exponent bits 62 to 52 and
    fraction bits 51 to 0 of [b]. *)
Definition Float64frombits (b : Z) : float64 :=
  let s := Z.testbit b 63 in
  let biased := Z.land (Z.shiftr b 52) (Z.ones 11) in
  let frac := Z.land b (Z.ones 52) in
  if biased =? 0 then
    match frac with
    | Z.pos m => F_finite s m (- 1074)
    | _ => F_zero s
    end
  else if biased =? 2047 then
    match frac with
    | Z.pos pl => F_nan s pl
    | _ => F_inf s
    end
  else
    match frac + 2 ^ 52 with
    | Z.pos m => F_finite s m (biased - 1075)
    | _ => F_zero s
    end.

(** * Properties *)

(** ** Machine integers *)

Lemma to_uint64_to_int64 z : Int.to_uint64 (Int.to_int64 z) = Int.to_uint64 z.
Proof.
  unfold Int.to_uint64, Int.to_int64.
  rewrite Zminus_mod, Z.mod_mod by lia.
  rewrite <- Zminus_mod.
  replace (z + 2 ^ 63 - 2 ^ 63) with z by lia. reflexivity.
Qed.

(** ** Comparison of doubles *)

Lemma eqb_true_inv f g :
  eqb f g = true ->
  (exists s s', f = F_zero s /\ g = F_zero s') \/ (f = g /\ IsNaN f = false).
Proof.
  destruct f as [s|s|s pl|s m e], g as [s'|s'|s' pl'|s' m' e'];
    unfold eqb, SFeqb; simpl; try discriminate;
    try (destruct s; discriminate); try (destruct s'; discriminate).
  - intros _. left. eauto.
  - destruct s, s'; try discriminate; intros _; right; auto.
  - destruct s, s'; try discriminate;
      destruct (e ?= e') eqn:He; try discriminate;
      destruct (Pos.compare_cont Eq m m') eqn:Hm; try discriminate;
      intros _; right; split; auto;
      apply Z.compare_eq in He; apply Pos.compare_eq in Hm; congruence.
Qed.

Lemma valueFloat_hash_eqb f g :
  eqb f g = true -> valueFloat_hash f = valueFloat_hash g.
Proof.
  intros H. apply eqb_true_inv in H as [(s & s' & -> & ->)|[-> _]];
    reflexivity.
Qed.

(** ** The hash of the numeric kinds *)

Lemma hash_agree_cases (a b : Value) :
  numeric_StrictEquals a b = Some true ->
  same_family a b = true \/ (is_zero a = true /\ is_zero b = true) ->
  numeric_hash a = numeric_hash b.
Proof.
  intros Heq Hcase.
  destruct a as [|i|i|f|?| | |?|?|?|? ?]; try discriminate Heq;
    destruct b as [|o|o|g|?| | |?|?|?|? ?]; try discriminate Heq;
    simpl in Heq; injection Heq as Heq; simpl.
  - apply Z.eqb_eq in Heq. now subst.
  - apply Z.eqb_eq in Heq. subst. unfold valueInt_hash, valueInt64_hash.
    now rewrite to_uint64_to_int64.
  - destruct Hcase as [Hf|[Hi Hg]]; [discriminate Hf|].
    simpl in Hi. apply Z.eqb_eq in Hi. subst i.
    destruct g; try discriminate Hg. reflexivity.
  - destruct Hcase as [Hf|[Hf Ho]]; [discriminate Hf|].
    simpl in Ho. apply Z.eqb_eq in Ho. subst o.
    destruct f; try discriminate Hf. reflexivity.
  - destruct Hcase as [Hf|[Hf Ho]]; [discriminate Hf|].
    simpl in Ho. apply Z.eqb_eq in Ho. subst o.
    destruct f; try discriminate Hf. reflexivity.
  - f_equal. now apply valueFloat_hash_eqb.
Qed.

(** C1 as stated fails: Integer(5) and Float(5.0) are StrictEquals, yet
    the first hashes to 5 and the second to the bit pattern
    0x4014000000000000 of the double. *)
Lemma hash_Integer_5_Float_5_differ :
  valid (of_int 5) = true
  /\ numeric_StrictEquals (valueInt 5) (valueFloat (of_int 5)) = Some true
  /\ same_number (of_int 5) 5 = true
  /\ valueInt_hash 5 = 5
  /\ valueFloat_hash (of_int 5) = 4617315517961601024
  /\ valueInt_hash 5 <> valueFloat_hash (of_int 5).
Proof. repeat split; try reflexivity. vm_compute. discriminate. Qed.

(** ** Integer against BigInteger *)

(** C2 (the code at the failing inputs): [valueInt.SameAs] is the
    comparison [i == other] with an interface value, which is false
    whenever [other] is not a [valueInt]; so Integer(n) is never SameAs
    BigInteger(n), while StrictEquals, Equals and the hash treat the
    Integer and the BigInteger of one 64-bit number alike. *)
Theorem Integer_BigInteger_SameAs_false (n : Z) :
  valueInt_SameAs n (valueInt64 n) = false
  /\ valueInt_SameAs 5 (valueInt64 5) = false
  /\ valueInt_StrictEquals (Int.to_int64 n) (valueInt64 n) = true
  /\ (forall toPrimitive fuel σ,
        valueInt_Equals toPrimitive fuel (Int.to_int64 n) (valueInt64 n) σ
        = Ret (true, σ))
  /\ valueInt_hash n = valueInt64_hash n.
Proof.
  repeat split; intros; try destruct fuel; simpl;
    rewrite ?Z.eqb_refl; reflexivity.
Qed.

(** ** SameAs between a Float and an Integer *)

(** C3 (as the code has it): with the Float as receiver,
    [f.SameAs(Integer(n))] holds exactly when [f == float64(n)], the
    integer rounded to the nearest double, and [f] is not -0.0. *)
Theorem valueFloat_SameAs_valueInt (f : float64) (n : Z) :
  valueFloat_SameAs f (valueInt n) = true
  <-> eqb f (of_int n) = true /\ f <> negativeZero.
Proof.
  unfold valueFloat_SameAs.
  destruct (eqb f (of_int n)) eqn:Heq; simpl.
  - destruct f as [[|]|[|]|s pl|[|] m e]; simpl; split.
    all: try (intros _; split; [reflexivity | discriminate]).
    all: try (intros _; reflexivity).
    all: try discriminate.
    intros [_ H]. now contradiction H.
  - split; [discriminate | intros [H _]; discriminate H].
Qed.

(** C3 as stated fails both ways round.  With the Integer as receiver
    [Integer(0).SameAs(Float(+0.0))] is false.  With the Float as
    receiver the double 2^53 is SameAs the Integer 2^53 + 1, which
    [float64] rounds to it, though the two numbers differ. *)
Lemma SameAs_Integer_Float_counterexample :
  valueInt_SameAs 0 (valueFloat zero) = false
  /\ valid (of_int (2 ^ 53)) = true
  /\ Int.int64_range (2 ^ 53 + 1)
  /\ valueFloat_SameAs (of_int (2 ^ 53)) (valueInt (2 ^ 53 + 1)) = true
  /\ same_number (of_int (2 ^ 53)) (2 ^ 53 + 1) = false
  /\ same_number (of_int (2 ^ 53)) (2 ^ 53) = true.
Proof.
  repeat split; try (vm_compute; reflexivity); vm_compute; discriminate.
Qed.

(** ** ToUInt32 on a Float *)

(** C5 (the code at the failing input): on NaN and on -Infinity
    [valueFloat.ToUInt32] answers 0; on +Infinity it answers
    [uint32(math.MaxInt32)] = 2147483647, the largest [int32], where the
    largest [uint32] is 4294967295. *)
Theorem valueFloat_ToUInt32_special (unrepresentable : float64 -> Z) :
  (forall s pl, valueFloat_ToUInt32 unrepresentable (F_nan s pl) = 0)
  /\ valueFloat_ToUInt32 unrepresentable (Inf true) = 2147483647
  /\ valueFloat_ToUInt32 unrepresentable (Inf true) <> Int.MaxUint32
  /\ valueFloat_ToUInt32 unrepresentable (Inf false) = 0
  /\ valueFloat_ToInt32 unrepresentable (Inf true) = Int.MaxInt32.
Proof. repeat split. discriminate. Qed.

(** ** SameAs and Equals on the special doubles *)

(** C9: any two NaN are SameAs; +0.0 and -0.0 are not SameAs but are
    Equals. *)
Theorem valueFloat_SameAs_Equals_special :
  (forall s pl s' pl',
     valueFloat_SameAs (F_nan s pl) (valueFloat (F_nan s' pl')) = true)
  /\ valueFloat_SameAs zero (valueFloat negativeZero) = false
  /\ valueFloat_SameAs negativeZero (valueFloat zero) = false
  /\ (forall toPrimitive fuel σ,
        valueFloat_Equals toPrimitive fuel zero (valueFloat negativeZero) σ
        = Ret (true, σ))
  /\ (forall toPrimitive fuel σ,
        valueFloat_Equals toPrimitive fuel negativeZero (valueFloat zero) σ
        = Ret (true, σ)).
Proof.
  repeat split; intros; destruct fuel; reflexivity.
Qed.

(** ** Symmetry of SameAs *)

(** C10 (the code at the failing input): Float(+0.0) is SameAs
    Integer(0), but Integer(0) is not SameAs Float(+0.0);
    [valueFloat.SameAs] has a case for [valueInt] and [valueInt64]
    operands, [valueInt.SameAs] has none for the other numeric kinds. *)
Theorem SameAs_not_symmetric :
  numeric_SameAs (valueFloat zero) (valueInt 0) = Some true
  /\ numeric_SameAs (valueInt 0) (valueFloat zero) = Some false
  /\ (forall n f, numeric_SameAs (valueInt n) (valueFloat f) = Some false)
  /\ (forall n m, numeric_SameAs (valueInt n) (valueInt64 m) = Some false).
Proof. repeat split. Qed.

(** ** Property slots *)

Section Slots.

Variable assertCallable : ptr -> option (FunctionCall -> M Value).
Variable vm_ctx : ptr -> Context.

Lemma deref_lookup (σ : Heap) (p : ptr) (pr : valueProperty) :
  σ !! p = Some pr -> deref p σ = Ret (pr, σ).
Proof. intros H. unfold deref. now rewrite H. Qed.

Lemma bind_deref {A} (σ : Heap) (p : ptr) (pr : valueProperty)
    (k : valueProperty -> M A) :
  σ !! p = Some pr -> (deref p ≫= k) σ = k pr σ.
Proof.
  intros H. unfold mbind, M_bind. now rewrite (deref_lookup _ _ _ H).
Qed.

Lemma valueProperty_get_by_getter
    (σ : Heap) (p : ptr) (pr : valueProperty) (this : Value) :
  σ !! p = Some pr ->
  (forall g call,
      getterFunc pr = Some g -> assertCallable g = Some call ->
      valueProperty_get assertCallable vm_ctx p this σ
      = call {| ctx := vm_ctx g; This := this; Arguments := [] |} σ)
  /\ (getterFunc pr = None -> value pr <> Value_nil ->
      valueProperty_get assertCallable vm_ctx p this σ = Ret (value pr, σ))
  /\ (getterFunc pr = None -> value pr = Value_nil ->
      valueProperty_get assertCallable vm_ctx p this σ = Ret (_undefined, σ)).
Proof.
  intros Hp. unfold valueProperty_get. rewrite (bind_deref _ _ _ _ Hp).
  repeat split.
  - intros g call -> ->. reflexivity.
  - intros -> Hv. destruct (value pr); try reflexivity. now contradiction Hv.
  - intros -> ->. reflexivity.
Qed.

(** C6: on every slot of the data model, [get] with a (callable) getter
    calls it with the receiver as [This] and no argument and hands back
    what the call does; with no getter and in accessor mode it answers
    Undefined; not in accessor mode it answers the stored value, or
    Undefined when none is stored.  [get] itself reads the getter and
    the stored value, never the accessor flag: the cases by the flag
    hold because such a slot stores no value in accessor mode and has no
    getter otherwise. *)
Theorem valueProperty_get_three_cases
    (σ : Heap) (p : ptr) (pr : valueProperty) (this : Value) :
  σ !! p = Some pr ->
  data_model_slot pr ->
  (forall g call,
      getterFunc pr = Some g -> assertCallable g = Some call ->
      valueProperty_get assertCallable vm_ctx p this σ
      = call {| ctx := vm_ctx g; This := this; Arguments := [] |} σ)
  /\ (getterFunc pr = None -> accessor pr = true ->
      valueProperty_get assertCallable vm_ctx p this σ = Ret (_undefined, σ))
  /\ (accessor pr = false ->
      (value pr <> Value_nil ->
       valueProperty_get assertCallable vm_ctx p this σ = Ret (value pr, σ))
      /\ (value pr = Value_nil ->
          valueProperty_get assertCallable vm_ctx p this σ
          = Ret (_undefined, σ))).
Proof.
  intros Hp [Hacc Hdata].
  destruct (valueProperty_get_by_getter σ p pr this Hp)
    as (Hgetter & Hvalue & Hnone).
  split; [exact Hgetter|]. split.
  - intros Hg Ha. apply Hnone; auto.
  - intros Ha. destruct (Hdata Ha) as [Hg _]. split; auto.
Qed.

(** C7: without a setter, [set] stores the new value in the slot and
    leaves every flag as it was, the writable flag not being looked at;
    [isWritable] answers true exactly when the writable flag is set or a
    setter is present. *)
Theorem valueProperty_set_isWritable
    (σ : Heap) (p : ptr) (pr : valueProperty) (this v : Value) :
  σ !! p = Some pr ->
  (setterFunc pr = None ->
   exists pr',
     valueProperty_set assertCallable vm_ctx p this v σ = Ret (tt, <[p := pr']> σ)
     /\ value pr' = v
     /\ writable pr' = writable pr
     /\ configurable pr' = configurable pr
     /\ enumerable pr' = enumerable pr
     /\ accessor pr' = accessor pr
     /\ getterFunc pr' = getterFunc pr
     /\ setterFunc pr' = None)
  /\ (exists b,
        valueProperty_isWritable p σ = Ret (b, σ)
        /\ (b = true <-> writable pr = true \/ setterFunc pr <> None)).
Proof.
  intros Hp. split.
  - intros Hs. unfold valueProperty_set.
    rewrite (bind_deref _ _ _ _ Hp), Hs.
    eexists. split; [reflexivity|]. simpl. repeat split.
  - unfold valueProperty_isWritable. rewrite (bind_deref _ _ _ _ Hp).
    eexists. split; [reflexivity|].
    rewrite orb_true_iff, bool_decide_eq_true. reflexivity.
Qed.

End Slots.

Lemma valueProperty_get_three_cases_witness :
  valueProperty_get answer_This the_ctx 1%positive (valueInt 7)
    {[1%positive := getter_slot]}
  = Ret (valueInt 7, {[1%positive := getter_slot]})
  /\ valueProperty_get no_callable the_ctx 1%positive (valueInt 7)
       {[1%positive := bare_accessor_slot]}
     = Ret (_undefined, {[1%positive := bare_accessor_slot]})
  /\ valueProperty_get no_callable the_ctx 1%positive (valueInt 7)
       {[1%positive := readonly_slot]}
     = Ret (valueInt 1, {[1%positive := readonly_slot]}).
Proof.
  split; [|split].
  - refine (proj1 (valueProperty_get_three_cases answer_This the_ctx
                     {[1%positive := getter_slot]} 1%positive getter_slot
                     (valueInt 7) (lookup_singleton_eq _ _) _)
              2%positive (fun call => mret (This call)) eq_refl eq_refl).
    split; [reflexivity | discriminate].
  - refine (proj1 (proj2 (valueProperty_get_three_cases no_callable the_ctx
                            {[1%positive := bare_accessor_slot]} 1%positive
                            bare_accessor_slot (valueInt 7)
                            (lookup_singleton_eq _ _) _))
              eq_refl eq_refl).
    split; [reflexivity | discriminate].
  - refine (proj1 (proj2 (proj2 (valueProperty_get_three_cases no_callable
                                   the_ctx {[1%positive := readonly_slot]}
                                   1%positive readonly_slot (valueInt 7)
                                   (lookup_singleton_eq _ _) _))
                     eq_refl) _).
    + split; [discriminate | intros _; split; reflexivity].
    + discriminate.
Defined.

Lemma valueProperty_set_isWritable_witness :
  exists pr',
    valueProperty_set no_callable the_ctx 1%positive valueUndefined
      (valueInt 9) {[1%positive := readonly_slot]}
    = Ret (tt, <[1%positive := pr']> {[1%positive := readonly_slot]})
    /\ value pr' = valueInt 9 /\ writable pr' = false.
Proof.
  destruct (valueProperty_set_isWritable no_callable the_ctx
              {[1%positive := readonly_slot]} 1%positive readonly_slot
              valueUndefined (valueInt 9) (lookup_singleton_eq _ _))
    as [Hset _].
  destruct (Hset eq_refl) as (pr' & Hrun & Hvalue & Hwritable & _).
  exists pr'. repeat split; assumption.
Defined.

(** C8 (as the code has it): on any slot the scalar coercions answer
    inert defaults: [ToBoolean] false; the string coercions [toString],
    [string] and [String] the empty string, and [ToString] the value
    Undefined; the integer coercions 0, [ToFloat] NaN, [ToNumber] and
    [ToObject] nil.  [hash], [Export] and [ExportType] panic with a
    fixed message and return nothing. *)
Theorem valueProperty_coercions (p : ptr) :
  valueProperty_ToBoolean p = false
  /\ valueProperty_toString p = EmptyString
  /\ valueProperty_string p = EmptyString
  /\ valueProperty_String p = EmptyString
  /\ valueProperty_ToString p = _undefined
  /\ valueProperty_ToInteger p = 0
  /\ valueProperty_ToInt p = 0
  /\ valueProperty_ToInt32 p = 0
  /\ valueProperty_ToUInt32 p = 0
  /\ valueProperty_ToInt64 p = 0
  /\ valueProperty_ToFloat p = NaN
  /\ valueProperty_ToNumber p = Value_nil
  /\ valueProperty_ToObject p = None
  /\ valueProperty_hash p
     = Raise (panicString "valueProperty should never be used in maps or sets")
  /\ valueProperty_Export p = Raise (panicString "Cannot export valueProperty")
  /\ valueProperty_ExportType p
     = Raise (panicString "Cannot export valueProperty")
  /\ (forall h, valueProperty_hash p <> Ret h)
  /\ (forall x, valueProperty_Export p <> Ret x).
Proof. repeat split; discriminate. Qed.

(** C8 as stated fails on [ToString]: on a slot it answers the value
    Undefined, whose text is "undefined", not the empty string. *)
Lemma valueProperty_ToString_not_empty :
  valueProperty_ToString 1%positive = valueUndefined
  /\ valueUndefined_String = "undefined"%string
  /\ valueUndefined_String <> EmptyString
  /\ valueProperty_String 1%positive = EmptyString.
Proof. repeat split. discriminate. Qed.

(** ** Unresolved references *)

(** C4 (as the code has it): every coercion, equality relation, hash,
    export and type assertion on an unresolved reference raises the
    reference error that carries its name.  [IsNumber] and [IsObject]
    answer false and [MemUsage] answers the length of the name and that
    length plus [SizeString], with no error; these three do not raise. *)
Theorem valueUnresolved_methods (r : ptr) (ref : string) :
  let raised {A} (call : outcome A) := call = Raise (referenceError ref) in
  (raised (valueUnresolved_ToInteger r ref)
   /\ raised (valueUnresolved_ToInt r ref)
   /\ raised (valueUnresolved_ToInt32 r ref)
   /\ raised (valueUnresolved_ToUInt32 r ref)
   /\ raised (valueUnresolved_ToInt64 r ref)
   /\ raised (valueUnresolved_ToFloat r ref)
   /\ raised (valueUnresolved_ToNumber r ref)
   /\ raised (valueUnresolved_ToBoolean r ref)
   /\ raised (valueUnresolved_ToObject r ref)
   /\ raised (valueUnresolved_toString r ref)
   /\ raised (valueUnresolved_string r ref)
   /\ raised (valueUnresolved_ToString r ref)
   /\ raised (valueUnresolved_String r ref))
  /\ (forall other,
        raised (valueUnresolved_SameAs r ref other)
        /\ raised (valueUnresolved_Equals r ref other)
        /\ raised (valueUnresolved_StrictEquals r ref other))
  /\ (raised (valueUnresolved_hash r ref)
      /\ raised (valueUnresolved_Export r ref)
      /\ raised (valueUnresolved_ExportType r ref)
      /\ raised (valueUnresolved_baseObject r ref))
  /\ (raised (valueUnresolved_assertInt r ref)
      /\ raised (valueUnresolved_assertUInt32 r ref)
      /\ raised (valueUnresolved_assertInt32 r ref)
      /\ raised (valueUnresolved_assertInt64 r ref)
      /\ raised (valueUnresolved_assertFloat r ref)
      /\ raised (valueUnresolved_assertString r ref))
  /\ valueUnresolved_IsNumber = Ret false
  /\ valueUnresolved_IsObject = Ret false
  /\ valueUnresolved_MemUsage ref
     = Ret (Int.to_uint64 (Z.of_nat (String.length ref)),
            Int.to_uint64
              (Int.to_uint64 (Z.of_nat (String.length ref)) + SizeString),
            None).
Proof. cbv zeta. repeat split. Qed.

(** C4 as stated fails on memory accounting: [MemUsage] on the
    unresolved reference named [x] returns the sizes 1 and 17 and no
    error, and raises nothing. *)
Lemma valueUnresolved_MemUsage_returns :
  valueUnresolved_MemUsage "x" = Ret (1, 17, None)
  /\ valueUnresolved_MemUsage "x" <> Raise (referenceError "x").
Proof. split; [reflexivity | discriminate]. Qed.

(** * Further properties of the file *)

(** ** More on the comparison of doubles *)

Lemma eqb_sym f g : eqb f g = eqb g f.
Proof.
  destruct f as [s|s|s pl|s m e], g as [s'|s'|s' pl'|s' m' e'];
    unfold eqb, SFeqb; simpl; try reflexivity;
    try (destruct s; reflexivity); try (destruct s'; reflexivity);
    try (destruct s, s'; reflexivity).
  change (Pos.compare_cont Eq m m') with (m ?= m')%positive.
  change (Pos.compare_cont Eq m' m) with (m' ?= m)%positive.
  rewrite (Z.compare_antisym e e'), (Pos.compare_antisym m m').
  destruct s, s'; try reflexivity;
    destruct (e ?= e'); simpl; try reflexivity;
    destruct (m ?= m')%positive; reflexivity.
Qed.

Lemma eqb_refl f : IsNaN f = false -> eqb f f = true.
Proof.
  destruct f as [s|s|s pl|s m e]; unfold eqb, SFeqb; simpl;
    try reflexivity; try discriminate.
  - destruct s; reflexivity.
  - intros _.
    change (Pos.compare_cont Eq m m) with (m ?= m)%positive.
    rewrite Z.compare_refl, Pos.compare_refl.
    destruct s; reflexivity.
Qed.

Lemma eqb_nan_l f g : IsNaN f = true -> eqb f g = false.
Proof. destruct f; try discriminate. reflexivity. Qed.

Lemma eqb_nan_r f g : IsNaN g = true -> eqb f g = false.
Proof. intros H. rewrite eqb_sym. now apply eqb_nan_l. Qed.

(** ** The conversion of an integer to a double is never NaN *)

Lemma shr_1_nonneg mrs : 0 <= shr_m mrs -> 0 <= shr_m (shr_1 mrs).
Proof.
  destruct mrs as [m r s]. simpl.
  destruct m as [|[p|p|]|[p|p|]]; simpl; lia.
Qed.

Lemma iter_pos_preserves {A} (P : A -> Prop) (f : A -> A) :
  (forall x, P x -> P (f x)) ->
  forall n x, P x -> P (SpecFloat.iter_pos f n x).
Proof.
  intros Hf n. induction n as [n IH|n IH|]; intros x Hx; simpl; auto.
Qed.

Lemma shr_nonneg mrs e n : 0 <= shr_m mrs -> 0 <= shr_m (fst (shr mrs e n)).
Proof.
  intros H. unfold shr. destruct n; simpl; try assumption.
  apply (iter_pos_preserves (fun x => 0 <= shr_m x)); auto using shr_1_nonneg.
Qed.

Lemma shr_m_of_loc m l : shr_m (shr_record_of_loc m l) = m.
Proof. destruct l as [|[| |]]; reflexivity. Qed.

Lemma shr_fexp_nonneg m e l :
  0 <= m -> 0 <= shr_m (fst (shr_fexp prec emax m e l)).
Proof.
  intros H. unfold shr_fexp. apply shr_nonneg. now rewrite shr_m_of_loc.
Qed.

Lemma round_nearest_even_nonneg mx lx :
  0 <= mx -> 0 <= round_nearest_even mx lx.
Proof.
  intros H. destruct lx as [|[| |]]; simpl; try lia.
  destruct (Z.even mx); lia.
Qed.

Lemma binary_round_aux_not_nan sx mx ex lx :
  0 <= mx -> binary_round_aux prec emax sx mx ex lx <> S754_nan.
Proof.
  intros H. unfold binary_round_aux.
  pose proof (shr_fexp_nonneg mx ex lx H) as H1.
  destruct (shr_fexp prec emax mx ex lx) as [mrs' e']. simpl in H1.
  pose proof (shr_fexp_nonneg _ e' loc_Exact
                (round_nearest_even_nonneg _ (loc_of_shr_record mrs') H1))
    as H2.
  destruct (shr_fexp prec emax
              (round_nearest_even (shr_m mrs') (loc_of_shr_record mrs'))
              e' loc_Exact) as [mrs'' e''].
  simpl in H2. destruct (shr_m mrs'') as [|m|m]; try discriminate; try lia.
  destruct (e'' <=? emax - prec); discriminate.
Qed.

Lemma of_int_not_nan i : IsNaN (of_int i) = false.
Proof.
  unfold of_int, binary_normalize.
  destruct i as [|p|p]; [reflexivity| |];
    unfold binary_round;
    destruct (shl_align p 0 _) as [mz ez];
    match goal with
    | |- IsNaN (of_SF ?x) = false =>
        pose proof (binary_round_aux_not_nan
                      ltac:(match x with binary_round_aux _ _ ?s _ _ _ => exact s end)
                      (Z.pos mz) ez loc_Exact ltac:(lia)) as Hn;
        destruct x; try reflexivity; now contradiction Hn
    end.
Qed.

(** ** SameAs and StrictEquals on the numeric kinds *)

Lemma SameAs_float_cases (f g : float64) :
  valueFloat_SameAs f (valueFloat g) = true
  <-> (IsNaN f = true /\ IsNaN g = true) \/ (f = g /\ IsNaN f = false).
Proof.
  unfold valueFloat_SameAs. split.
  - destruct (IsNaN f && IsNaN g) eqn:Hn.
    + apply andb_true_iff in Hn. now left.
    + destruct (eqb f g) eqn:He; simpl.
      * apply eqb_true_inv in He as [(s & s' & -> & ->)|[-> Hf]].
        -- simpl. intros H. apply Bool.eqb_prop in H. subst. now right.
        -- intros _. now right.
      * discriminate.
  - intros [[-> ->]|[<- Hf]]; [reflexivity|].
    rewrite Hf. simpl. rewrite (eqb_refl f Hf). simpl.
    destruct (eqb f zero); [apply Bool.eqb_reflx | reflexivity].
Qed.

(** X1: two Floats are SameAs exactly when both are NaN, or they are the
    same double that is not NaN: same sign, mantissa and exponent, so
    +0.0 and -0.0 are told apart. *)
Theorem valueFloat_SameAs_valueFloat_iff (f g : float64) :
  valueFloat_SameAs f (valueFloat g) = true
  <-> (IsNaN f = true /\ IsNaN g = true) \/ (f = g /\ IsNaN f = false).
Proof. exact (SameAs_float_cases f g). Qed.

(** X2: on Floats SameAs is an equivalence: reflexive (NaN included),
    symmetric and transitive. *)
Theorem valueFloat_SameAs_equivalence :
  (forall f, valueFloat_SameAs f (valueFloat f) = true)
  /\ (forall f g,
        valueFloat_SameAs f (valueFloat g) = valueFloat_SameAs g (valueFloat f))
  /\ (forall f g h,
        valueFloat_SameAs f (valueFloat g) = true ->
        valueFloat_SameAs g (valueFloat h) = true ->
        valueFloat_SameAs f (valueFloat h) = true).
Proof.
  assert (Hsym : forall f g,
             valueFloat_SameAs f (valueFloat g) = true ->
             valueFloat_SameAs g (valueFloat f) = true).
  { intros f g H. apply SameAs_float_cases in H.
    apply SameAs_float_cases.
    destruct H as [[Hf Hg]|[<- Hf]]; [left|right]; auto. }
  split; [|split].
  - intros f. apply SameAs_float_cases.
    destruct (IsNaN f) eqn:Hf; [left|right]; auto.
  - intros f g.
    destruct (valueFloat_SameAs f (valueFloat g)) eqn:H1,
             (valueFloat_SameAs g (valueFloat f)) eqn:H2; try reflexivity.
    + apply Hsym in H1. congruence.
    + apply Hsym in H2. congruence.
  - intros f g h H1 H2.
    apply SameAs_float_cases in H1, H2.
    apply SameAs_float_cases.
    destruct H1 as [[Hf Hg]|[<- Hf]], H2 as [[Hg' Hh]|[<- Hg']];
      try congruence; [left|right]; auto.
Qed.

(** X3: a NaN is StrictEquals to nothing, itself included, whichever
    side it stands on; SameAs is the relation that accepts it. *)
Theorem NaN_never_StrictEquals (s : bool) (pl : positive) :
  (forall other, valueFloat_StrictEquals (F_nan s pl) other = false)
  /\ (forall f, valueFloat_StrictEquals f (valueFloat (F_nan s pl)) = false)
  /\ (forall i, valueInt_StrictEquals i (valueFloat (F_nan s pl)) = false)
  /\ valueFloat_SameAs (F_nan s pl) (valueFloat (F_nan s pl)) = true.
Proof.
  repeat split.
  - intros other. destruct other; reflexivity.
  - intros f. simpl. now apply eqb_nan_r.
  - intros i. simpl. now apply eqb_nan_r.
Qed.

(** X4: StrictEquals does not depend on which operand is the receiver:
    Integer against Float, Float against Float and Integer against
    Integer give the same answer both ways round. *)
Theorem StrictEquals_symmetric :
  (forall i f,
      valueInt_StrictEquals i (valueFloat f)
      = valueFloat_StrictEquals f (valueInt i))
  /\ (forall f g,
        valueFloat_StrictEquals f (valueFloat g)
        = valueFloat_StrictEquals g (valueFloat f))
  /\ (forall i o,
        valueInt_StrictEquals i (valueInt o)
        = valueInt_StrictEquals o (valueInt i)).
Proof.
  repeat split; intros; simpl; auto using eqb_sym, Z.eqb_sym.
Qed.

(** X5: every Integer is StrictEquals to the Float it converts to, in
    both directions: the conversion [float64(i)] never gives NaN. *)
Theorem Integer_StrictEquals_its_Float (i : Z) :
  valueInt_StrictEquals i (valueFloat (of_int i)) = true
  /\ valueFloat_StrictEquals (of_int i) (valueInt i) = true
  /\ valueFloat_StrictEquals (of_int i) (valueInt64 i) = true.
Proof.
  repeat split; simpl; apply eqb_refl, of_int_not_nan.
Qed.

(** X6: for a Float receiver that is not NaN, SameAs implies
    StrictEquals against every operand. *)
Theorem valueFloat_SameAs_implies_StrictEquals (f : float64) (other : Value) :
  IsNaN f = false ->
  valueFloat_SameAs f other = true ->
  valueFloat_StrictEquals f other = true.
Proof.
  intros Hf. destruct other as [|o|o|g|?| | |?|?|?|? ?]; simpl;
    try discriminate.
  - destruct (eqb f (of_int o)); [reflexivity|discriminate].
  - destruct (eqb f (of_int o)); [reflexivity|discriminate].
  - rewrite Hf. simpl. destruct (eqb f g); [reflexivity|discriminate].
Qed.

Lemma valueFloat_SameAs_implies_StrictEquals_witness :
  valueFloat_StrictEquals (of_int 3) (valueInt 3) = true.
Proof.
  apply (valueFloat_SameAs_implies_StrictEquals (of_int 3) (valueInt 3));
    reflexivity.
Defined.

(** ** Equals *)

Lemma to_int64_id z : Int.int64_range z -> Int.to_int64 z = z.
Proof.
  unfold Int.int64_range, Int.to_int64. intros H.
  rewrite Z.mod_small by lia. lia.
Qed.

Lemma mbind_Ret {A B} (m : M A) (k : A -> M B) σ a σ' :
  m σ = Ret (a, σ') -> (m ≫= k) σ = k a σ'.
Proof. intros H. unfold mbind, M_bind. now rewrite H. Qed.

Lemma mbind_Raise {A B} (m : M A) (k : A -> M B) σ e :
  m σ = Raise e -> (m ≫= k) σ = Raise e.
Proof. intros H. unfold mbind, M_bind. now rewrite H. Qed.

Section EqualsProperties.

Variable toPrimitive : ptr -> M Value.

(** X7: against an Integer, BigInteger or Float operand, Equals of an
    Integer or a Float is its StrictEquals: it needs no fuel, raises
    nothing and leaves the heap as it was. *)
Theorem Equals_numeric_operand (fuel : nat) (other : Value) (σ : Heap) :
  numeric_operand other = true ->
  (forall i,
      valueInt_Equals toPrimitive fuel i other σ
      = Ret (valueInt_StrictEquals i other, σ))
  /\ (forall f,
        valueFloat_Equals toPrimitive fuel f other σ
        = Ret (valueFloat_StrictEquals f other, σ)).
Proof.
  intros H. destruct other; try discriminate H;
    split; intros; destruct fuel; reflexivity.
Qed.

(** X8: a Boolean operand is compared as the number it converts to:
    [x.Equals(b)] is [x.Equals(b.ToNumber())] for an Integer and for a
    Float [x]. *)
Theorem Equals_Boolean_operand
    (fuel : nat) (i : Z) (b : bool) (σ : Heap) :
  Int.int64_range i ->
  valueInt_Equals toPrimitive fuel i (valueBool b) σ
  = valueInt_Equals toPrimitive fuel i (valueBool_ToNumber b) σ
  /\ (forall f,
        valueFloat_Equals toPrimitive fuel f (valueBool b) σ
        = valueFloat_Equals toPrimitive fuel f (valueBool_ToNumber b) σ).
Proof.
  intros Hi. split; [|intros f]; destruct fuel, b; simpl;
    rewrite ?(to_int64_id i Hi); reflexivity.
Qed.

(** X9: an Object operand is reduced by [toPrimitive] once; when the
    result is not an Object again the answer is that of the comparison
    with the result, in the heap the reduction left, and one unit of
    fuel is enough. *)
Theorem Equals_Object_operand
    (fuel : nat) (o : ptr) (v : Value) (σ σ' : Heap) :
  toPrimitive o σ = Ret (v, σ') ->
  is_Object v = false ->
  (forall i,
      valueInt_Equals toPrimitive (S fuel) i (Object_ptr o) σ
      = valueInt_Equals toPrimitive 0 i v σ')
  /\ (forall f,
        valueFloat_Equals toPrimitive (S fuel) f (Object_ptr o) σ
        = valueFloat_Equals toPrimitive 0 f v σ')
  /\ (forall s,
        Symbol_Equals toPrimitive (S fuel) s (Object_ptr o) σ
        = Ret (Symbol_SameAs s v, σ')).
Proof.
  intros Hp Hv. repeat split; intros; simpl;
    rewrite (mbind_Ret _ _ _ _ _ Hp);
    destruct fuel, v; try discriminate Hv; reflexivity.
Qed.

(** X10: a panic raised while the Object operand is reduced is the
    outcome of Equals; it is not caught. *)
Theorem Equals_Object_operand_raises
    (fuel : nat) (o : ptr) (e : panic) (σ : Heap) :
  toPrimitive o σ = Raise e ->
  (forall i,
      valueInt_Equals toPrimitive (S fuel) i (Object_ptr o) σ = Raise e)
  /\ (forall f,
        valueFloat_Equals toPrimitive (S fuel) f (Object_ptr o) σ = Raise e)
  /\ (forall s,
        Symbol_Equals toPrimitive (S fuel) s (Object_ptr o) σ = Raise e).
Proof.
  intros Hp. repeat split; intros; simpl; now rewrite (mbind_Raise _ _ _ _ Hp).
Qed.

(** X11: a Symbol is SameAs and StrictEquals to an operand exactly when
    the operand is the same Symbol pointer, and against an operand that
    is not an Object its Equals is the same test, made without touching
    the heap. *)
Theorem Symbol_equality_is_identity (s : ptr) (other : Value) :
  (Symbol_SameAs s other = true <-> other = Symbol_ptr s)
  /\ Symbol_StrictEquals s other = Symbol_SameAs s other
  /\ (is_Object other = false ->
      forall fuel σ,
        Symbol_Equals toPrimitive fuel s other σ
        = Ret (Symbol_SameAs s other, σ)).
Proof.
  repeat split.
  - destruct other; simpl; try discriminate.
    intros H. apply bool_decide_eq_true in H. congruence.
  - intros ->. simpl. now apply bool_decide_eq_true.
  - intros H fuel σ. destruct fuel, other; try discriminate H; reflexivity.
Qed.

End EqualsProperties.

Lemma Equals_numeric_operand_witness :
  valueInt_Equals primitive_five 0 5 (valueFloat (of_int 5)) ∅
  = Ret (true, ∅).
Proof.
  exact (proj1 (Equals_numeric_operand primitive_five 0
                  (valueFloat (of_int 5)) ∅ eq_refl) 5).
Defined.

Lemma Equals_Boolean_operand_witness :
  valueInt_Equals primitive_five 0 1 (valueBool true) ∅
  = valueInt_Equals primitive_five 0 1 (valueInt 1) ∅.
Proof.
  refine (proj1 (Equals_Boolean_operand primitive_five 0 1 true ∅ _)).
  unfold Int.int64_range. lia.
Defined.

Lemma Equals_Object_operand_witness :
  valueInt_Equals primitive_five 1 5 (Object_ptr 2%positive) ∅
  = Ret (true, ∅).
Proof.
  exact (proj1 (Equals_Object_operand primitive_five 0 2%positive
                  (valueInt 5) ∅ ∅ eq_refl eq_refl) 5).
Defined.

Lemma Equals_Object_operand_raises_witness :
  valueInt_Equals (fun _ => raise (typeError "no primitive")) 1 5
    (Object_ptr 2%positive) ∅
  = Raise (typeError "no primitive").
Proof.
  exact (proj1 (Equals_Object_operand_raises
                  (fun _ => raise (typeError "no primitive")) 0 2%positive
                  (typeError "no primitive") ∅ eq_refl) 5).
Defined.

(** ** Conversions of a Float to an integer *)

Lemma digits2_pos_bounds m :
  2 ^ (Z.pos (digits2_pos m) - 1) <= Z.pos m < 2 ^ Z.pos (digits2_pos m).
Proof.
  induction m as [p IH|p IH|]; simpl digits2_pos.
  - rewrite Pos2Z.inj_succ, Pos2Z.inj_xI.
    replace (Z.succ (Z.pos (digits2_pos p)) - 1)
      with (Z.succ (Z.pos (digits2_pos p) - 1)) by lia.
    rewrite !Z.pow_succ_r by lia. lia.
  - rewrite Pos2Z.inj_succ. change (Z.pos p~0) with (2 * Z.pos p).
    replace (Z.succ (Z.pos (digits2_pos p)) - 1)
      with (Z.succ (Z.pos (digits2_pos p) - 1)) by lia.
    rewrite !Z.pow_succ_r by lia. lia.
  - simpl. lia.
Qed.

Lemma valid_finite_bounds s m e :
  valid (F_finite s m e) = true ->
  Z.pos m < 2 ^ 53 /\ (-1074 < e -> 2 ^ 52 <= Z.pos m).
Proof.
  unfold valid, bounded, canonical_mantissa, fexp, SpecFloat.emin, prec, emax.
  intros H. apply andb_true_iff in H as [H _]. apply Z.eqb_eq in H.
  pose proof (digits2_pos_bounds m) as [Hlo Hhi].
  set (d := Z.pos (digits2_pos m)) in *.
  assert (Hd : 0 < d) by (unfold d; lia).
  split.
  - assert (d <= 53) by lia.
    apply Z.lt_le_trans with (2 ^ d); [assumption|].
    apply Z.pow_le_mono_r; lia.
  - intros He. assert (d = 53) by lia.
    replace (d - 1) with 52 in Hlo by lia. assumption.
Qed.

Lemma float_MaxInt64_eq :
  float_MaxInt64 = F_finite false 4503599627370496 11.
Proof. vm_compute. reflexivity. Qed.

Lemma float_MinInt64_eq :
  float_MinInt64 = F_finite true 4503599627370496 11.
Proof. vm_compute. reflexivity. Qed.

Lemma trunc_magnitude (m : positive) (e : Z) :
  let a := if 0 <=? e then Z.pos m * 2 ^ e else Z.pos m / 2 ^ (- e) in
  (e < 11 -> Z.pos m < 2 ^ 53 -> 0 <= a < 2 ^ 63)
  /\ (e = 11 -> a = Z.pos m * 2 ^ 11)
  /\ (11 < e -> 2 ^ 52 <= Z.pos m -> 2 ^ 64 <= a).
Proof.
  cbv zeta. repeat split.
  - destruct (Z.leb_spec 0 e).
    + assert (0 < 2 ^ e) by (apply Z.pow_pos_nonneg; lia). nia.
    + apply Z.div_pos; [lia|]. apply Z.pow_pos_nonneg; lia.
  - destruct (Z.leb_spec 0 e).
    + assert (2 ^ e <= 2 ^ 10) by (apply Z.pow_le_mono_r; lia).
      assert (0 < 2 ^ e) by (apply Z.pow_pos_nonneg; lia). nia.
    + assert (0 < 2 ^ (- e)) by (apply Z.pow_pos_nonneg; lia).
      assert (Z.pos m / 2 ^ (- e) <= Z.pos m)
        by (apply Z.div_le_upper_bound; nia).
      lia.
  - intros ->. reflexivity.
  - intros He Hm. destruct (Z.leb_spec 0 e); [|lia].
    assert (2 ^ 12 <= 2 ^ e) by (apply Z.pow_le_mono_r; lia). nia.
Qed.

(** 4503599627370496 is 2^52, the smallest mantissa of a normal double. *)
Lemma compare_mantissa_l (m : positive) :
  CompareSpec (Z.pos m = 2 ^ 52) (Z.pos m < 2 ^ 52) (2 ^ 52 < Z.pos m)
    (Pos.compare_cont Eq m 4503599627370496).
Proof.
  rewrite Pos.compare_cont_spec. unfold Pos.switch_Eq.
  destruct (Pos.compare_spec m 4503599627370496) as [Hc|Hc|Hc];
    [apply CompEq|apply CompLt|apply CompGt];
    [rewrite Hc; reflexivity | |];
    apply Pos2Z.pos_lt_pos in Hc; lia.
Qed.

Lemma compare_mantissa_r (m : positive) :
  CompareSpec (Z.pos m = 2 ^ 52) (2 ^ 52 < Z.pos m) (Z.pos m < 2 ^ 52)
    (Pos.compare_cont Eq 4503599627370496 m).
Proof.
  rewrite Pos.compare_cont_spec. unfold Pos.switch_Eq.
  destruct (Pos.compare_spec 4503599627370496 m) as [Hc|Hc|Hc];
    [apply CompEq|apply CompLt|apply CompGt];
    [rewrite <- Hc; reflexivity | |];
    apply Pos2Z.pos_lt_pos in Hc; lia.
Qed.

Ltac clamp_leaf :=
  cbn [CompOpp]; cbv iota beta;
  repeat match goal with
         | |- context [?x <=? ?y] => destruct (Z.leb_spec x y)
         end;
  cbn [andb]; cbv iota; lia.

Lemma floatToIntClip_clamp (unrepresentable : float64 -> Z) (f : float64) :
  valid f = true ->
  floatToIntClip unrepresentable f
  = match f with
    | F_inf s => if s then Int.MinInt64 else Int.MaxInt64
    | _ => clamp_int64 (trunc f)
    end.
Proof.
  intros Hv. destruct f as [s|s|s pl|s m e].
  1-2: destruct s; vm_compute; reflexivity.
  1: vm_compute; reflexivity.
  pose proof (valid_finite_bounds _ _ _ Hv) as [Hhi Hlo].
  pose proof (trunc_magnitude m e) as (Hsmall & Heq & Hbig). cbv zeta in *.
  unfold floatToIntClip, int64_of_float, clamp_int64, trunc.
  change (IsNaN (F_finite s m e)) with false. cbv iota.
  rewrite float_MaxInt64_eq, float_MinInt64_eq.
  unfold float_leb, SFleb, to_SF, SFcompare,
    Int.MaxInt64, Int.MinInt64 in *.
  set (a := if 0 <=? e then Z.pos m * 2 ^ e else Z.pos m / 2 ^ (- e)) in *.
  clearbody a.
  destruct s.
  - destruct (Z.compare_spec e 11) as [He|He|He].
    + specialize (Heq He).
      destruct (compare_mantissa_l m) as [Hm|Hm|Hm]; clamp_leaf.
    + specialize (Hsmall He Hhi). clamp_leaf.
    + specialize (Hbig He (Hlo ltac:(lia))). clamp_leaf.
  - destruct (Z.compare_spec 11 e) as [He|He|He].
    + specialize (Heq (eq_sym He)).
      destruct (compare_mantissa_r m) as [Hm|Hm|Hm]; clamp_leaf.
    + specialize (Hbig He (Hlo ltac:(lia))). clamp_leaf.
    + specialize (Hsmall He Hhi). clamp_leaf.
Qed.

Section ConversionProperties.

Variable unrepresentable : float64 -> Z.

(** X12: [ToInteger] of a Float never reaches the conversion Go leaves
    to the implementation: on every double it is the truncation of the
    number clamped to the [int64] range, 0 on NaN and the nearer bound on
    an infinity, so the result always fits an [int64]. *)
Theorem valueFloat_ToInteger_clamps (f : float64) :
  valid f = true ->
  valueFloat_ToInteger unrepresentable f
  = match f with
    | F_inf s => if s then Int.MinInt64 else Int.MaxInt64
    | _ => clamp_int64 (trunc f)
    end
  /\ Int.MinInt64 <= valueFloat_ToInteger unrepresentable f <= Int.MaxInt64.
Proof.
  intros Hv. unfold valueFloat_ToInteger.
  rewrite (floatToIntClip_clamp unrepresentable f Hv). split; [reflexivity|].
  unfold clamp_int64, Int.MinInt64, Int.MaxInt64.
  destruct f as [s|[|]|s pl|s m e]; lia.
Qed.

(** X13: [ToInt64] and [ToInt] of a Float agree with [ToInteger]
    whenever the truncated number fits an [int64]; they can differ only
    where [ToInteger] clips. *)
Theorem valueFloat_ToInt64_agrees_ToInteger (f : float64) :
  valid f = true ->
  Int.MinInt64 <= trunc f <= Int.MaxInt64 ->
  valueFloat_ToInt64 unrepresentable f
  = valueFloat_ToInteger unrepresentable f
  /\ valueFloat_ToInt unrepresentable f
     = valueFloat_ToInteger unrepresentable f.
Proof.
  intros Hv Ht. unfold valueFloat_ToInteger.
  rewrite (floatToIntClip_clamp unrepresentable f Hv).
  unfold valueFloat_ToInt64, valueFloat_ToInt, int64_of_float, clamp_int64.
  destruct f as [s|[|]|s pl|s m e]; try (split; reflexivity).
  change (IsNaN (F_finite s m e)) with false.
  change (IsInf (F_finite s m e) true) with false.
  change (IsInf (F_finite s m e) false) with false. cbv iota.
  unfold Int.MinInt64, Int.MaxInt64 in *.
  set (t := trunc (F_finite s m e)) in *. clearbody t.
  destruct (Z.leb_spec (- 2 ^ 63) t), (Z.leb_spec t (2 ^ 63 - 1));
    cbn [andb]; cbv iota; lia.
Qed.

End ConversionProperties.

Lemma valueFloat_ToInteger_clamps_witness :
  valueFloat_ToInteger (fun _ => 0) (of_int (2 ^ 70)) = Int.MaxInt64
  /\ valueFloat_ToInteger (fun _ => 0) (of_int (- 7)) = - 7.
Proof.
  split.
  - exact (proj1 (valueFloat_ToInteger_clamps (fun _ => 0) (of_int (2 ^ 70))
                    eq_refl)).
  - exact (proj1 (valueFloat_ToInteger_clamps (fun _ => 0) (of_int (- 7))
                    eq_refl)).
Defined.

Lemma valueFloat_ToInt64_agrees_ToInteger_witness :
  valueFloat_ToInt64 (fun _ => 0) (of_int (- 7))
  = valueFloat_ToInteger (fun _ => 0) (of_int (- 7)).
Proof.
  refine (proj1 (valueFloat_ToInt64_agrees_ToInteger (fun _ => 0)
                   (of_int (- 7)) eq_refl _)).
  vm_compute. split; discriminate.
Defined.

(** X14: [ToBoolean] of a Float is false exactly on the two zeros and on
    NaN, and [ToBoolean] of an Integer exactly on 0. *)
Theorem ToBoolean_false_iff :
  (forall f,
      valueFloat_ToBoolean f = false
      <-> (exists s, f = F_zero s) \/ IsNaN f = true)
  /\ (forall i, valueInt_ToBoolean i = false <-> i = 0).
Proof.
  split.
  - intros f. unfold valueFloat_ToBoolean. split.
    + destruct (eqb f zero) eqn:He.
      * apply eqb_true_inv in He as [(s & _ & -> & _)|[-> _]];
          intros _; left; eauto.
      * simpl. intros H. apply negb_false_iff in H. now right.
    + intros [[s ->]|H]; [reflexivity|].
      rewrite H. simpl. apply andb_false_r.
  - intros i. unfold valueInt_ToBoolean.
    rewrite negb_false_iff. apply Z.eqb_eq.
Qed.

(** X15: the 32-bit conversions of an Integer keep its low 32 bits:
    [ToInt32] and [ToUInt32] are congruent to the integer modulo 2^32,
    each within the range of its type, so they differ by
    reinterpretation only. *)
Theorem valueInt_32bit_conversions (i : Z) :
  - 2 ^ 31 <= valueInt_ToInt32 i < 2 ^ 31
  /\ 0 <= valueInt_ToUInt32 i < 2 ^ 32
  /\ valueInt_ToUInt32 i = i mod 2 ^ 32
  /\ valueInt_ToInt32 i mod 2 ^ 32 = i mod 2 ^ 32.
Proof.
  unfold valueInt_ToInt32, valueInt_ToUInt32, Int.to_int32, Int.to_uint32.
  pose proof (Z.mod_pos_bound (i + 2 ^ 31) (2 ^ 32) ltac:(lia)).
  pose proof (Z.mod_pos_bound i (2 ^ 32) ltac:(lia)).
  repeat split; try lia.
  rewrite Zminus_mod, Z.mod_mod by lia. rewrite <- Zminus_mod.
  f_equal. lia.
Qed.

(** X16: the hash of an Integer is one-to-one on the 64-bit integers:
    two Integers have the same hash exactly when they are
    StrictEquals. *)
Theorem valueInt_hash_injective (a b : Z) :
  Int.int64_range a -> Int.int64_range b ->
  (valueInt_hash a = valueInt_hash b
   <-> valueInt_StrictEquals a (valueInt b) = true).
Proof.
  unfold Int.int64_range, valueInt_hash, Int.to_uint64. intros Ha Hb.
  simpl. rewrite Z.eqb_eq. split; [|intros ->; reflexivity].
  intros H.
  pose proof (Z.div_mod a (2 ^ 64) ltac:(lia)).
  pose proof (Z.div_mod b (2 ^ 64) ltac:(lia)).
  pose proof (Z.mod_pos_bound a (2 ^ 64) ltac:(lia)).
  pose proof (Z.mod_pos_bound b (2 ^ 64) ltac:(lia)).
  lia.
Qed.

Lemma valueInt_hash_injective_witness :
  valueInt_hash (- 1) = valueInt_hash (- 1)
  <-> valueInt_StrictEquals (- 1) (valueInt (- 1)) = true.
Proof.
  apply (valueInt_hash_injective (- 1) (- 1));
    unfold Int.int64_range; lia.
Defined.

(** ** More on property slots *)

Section SlotProperties.

Variable assertCallable : ptr -> option (FunctionCall -> M Value).
Variable vm_ctx : ptr -> Context.

(** X17: on a slot with neither setter nor getter, [get] after [set]
    answers the value just stored (Undefined when nil was stored); the
    write changes no other slot and leaves [isWritable] of the slot as
    the writable flag had it. *)
Theorem set_then_get
    (σ : Heap) (p : ptr) (pr : valueProperty) (this this' v : Value) :
  σ !! p = Some pr ->
  setterFunc pr = None ->
  getterFunc pr = None ->
  exists σ',
    valueProperty_set assertCallable vm_ctx p this v σ = Ret (tt, σ')
    /\ valueProperty_get assertCallable vm_ctx p this' σ'
       = Ret (match v with Value_nil => _undefined | _ => v end, σ')
    /\ valueProperty_isWritable p σ' = Ret (writable pr, σ')
    /\ (forall q, q <> p -> σ' !! q = σ !! q).
Proof.
  intros Hp Hs Hg. eexists. split; [|split; [|split]].
  - unfold valueProperty_set. rewrite (bind_deref _ _ _ _ Hp), Hs.
    reflexivity.
  - unfold valueProperty_get.
    rewrite (bind_deref _ _ _ _ (lookup_insert_eq _ _ _)). simpl.
    rewrite Hg. now destruct v.
  - unfold valueProperty_isWritable.
    rewrite (bind_deref _ _ _ _ (lookup_insert_eq _ _ _)). simpl.
    now rewrite orb_false_r.
  - intros q Hq. now apply lookup_insert_ne.
Qed.

(** X18: on a slot with a callable setter, [set] calls the setter with
    the receiver as [This] and the new value as its only argument, and
    writes nothing itself: the heap after [set] is the heap the call
    left, and a panic of the call is the outcome of [set].  Such a slot
    is writable whatever its writable flag. *)
Theorem set_calls_setter
    (σ : Heap) (p s : ptr) (pr : valueProperty) (this v : Value)
    (call : FunctionCall -> M Value) :
  σ !! p = Some pr ->
  setterFunc pr = Some s ->
  assertCallable s = Some call ->
  let invocation :=
    call {| ctx := vm_ctx s; This := this; Arguments := [v] |} σ in
  (forall r σ',
      invocation = Ret (r, σ') ->
      valueProperty_set assertCallable vm_ctx p this v σ = Ret (tt, σ'))
  /\ (forall e,
        invocation = Raise e ->
        valueProperty_set assertCallable vm_ctx p this v σ = Raise e)
  /\ valueProperty_isWritable p σ = Ret (true, σ).
Proof.
  intros Hp Hs Hc. cbv zeta. repeat split.
  - intros r σ' Hcall. unfold valueProperty_set.
    rewrite (bind_deref _ _ _ _ Hp), Hs, Hc.
    now rewrite (mbind_Ret _ _ _ _ _ Hcall).
  - intros e Hcall. unfold valueProperty_set.
    rewrite (bind_deref _ _ _ _ Hp), Hs, Hc.
    now rewrite (mbind_Raise _ _ _ _ Hcall).
  - unfold valueProperty_isWritable.
    rewrite (bind_deref _ _ _ _ Hp), Hs. simpl. now rewrite orb_true_r.
Qed.

End SlotProperties.

Lemma set_then_get_witness :
  exists σ',
    valueProperty_set no_callable the_ctx 1%positive valueUndefined
      (valueInt 9) {[1%positive := readonly_slot]} = Ret (tt, σ')
    /\ valueProperty_get no_callable the_ctx 1%positive valueUndefined σ'
       = Ret (valueInt 9, σ').
Proof.
  destruct (set_then_get no_callable the_ctx
              {[1%positive := readonly_slot]} 1%positive readonly_slot
              valueUndefined valueUndefined (valueInt 9)
              (lookup_singleton_eq _ _) eq_refl eq_refl)
    as (σ' & Hset & Hget & _).
  exists σ'. split; assumption.
Defined.

Lemma set_calls_setter_witness :
  exists σ',
    valueProperty_set store_argument the_ctx 2%positive valueUndefined
      (valueInt 4) {[2%positive := setter_slot]} = Ret (tt, σ')
    /\ value <$> (σ' !! 1%positive) = Some (valueInt 4)
    /\ σ' !! 2%positive = Some setter_slot.
Proof.
  destruct (set_calls_setter store_argument the_ctx
              {[2%positive := setter_slot]} 2%positive 3%positive
              setter_slot valueUndefined (valueInt 4) _
              (lookup_singleton_eq _ _) eq_refl eq_refl) as (Hret & _ & _).
  eexists. split; [exact (Hret _ _ eq_refl)|].
  split; reflexivity.
Defined.

(** X19: a slot is SameAs an operand exactly when the operand is the
    same slot pointer, and it is Equals and StrictEquals to nothing,
    itself included. *)
Theorem valueProperty_equality (p : ptr) (other : Value) :
  (valueProperty_SameAs p other = true <-> other = valueProperty_ptr p)
  /\ valueProperty_Equals p (valueProperty_ptr p) = false
  /\ valueProperty_StrictEquals p (valueProperty_ptr p) = false
  /\ valueProperty_Equals p other = false
  /\ valueProperty_StrictEquals p other = false.
Proof.
  repeat split.
  - destruct other; simpl; try discriminate.
    intros H. apply bool_decide_eq_true in H. congruence.
  - intros ->. simpl. now apply bool_decide_eq_true.
Qed.

(** ** Null and Undefined *)

(** X20: Null and Undefined are Equals to each other and to themselves
    and to nothing else, while SameAs and StrictEquals hold for each
    only against its own kind; no Integer and no Float is Equals to
    either. *)
Theorem Null_Undefined_equality (other : Value) :
  (valueNull_Equals other = true
   <-> other = valueNull \/ other = valueUndefined)
  /\ (valueUndefined_Equals other = true
      <-> other = valueNull \/ other = valueUndefined)
  /\ (valueNull_SameAs other = true <-> other = valueNull)
  /\ (valueNull_StrictEquals other = true <-> other = valueNull)
  /\ (valueUndefined_SameAs other = true <-> other = valueUndefined)
  /\ (valueUndefined_StrictEquals other = true <-> other = valueUndefined)
  /\ (forall toPrimitive fuel i σ,
        valueInt_Equals toPrimitive fuel i valueNull σ = Ret (false, σ)
        /\ valueInt_Equals toPrimitive fuel i valueUndefined σ
           = Ret (false, σ))
  /\ (forall toPrimitive fuel f σ,
        valueFloat_Equals toPrimitive fuel f valueNull σ = Ret (false, σ)
        /\ valueFloat_Equals toPrimitive fuel f valueUndefined σ
           = Ret (false, σ)).
Proof.
  repeat split;
    try (destruct fuel; reflexivity);
    try (intros [->| ->]; reflexivity);
    try (intros ->; reflexivity);
    destruct other; simpl; intros H; try discriminate H; auto.
Qed.

(** ** The tables of small integers *)

Lemma init_intCache_eq :
  init_intCache = (fun i => valueInt (Z.of_nat i - 128)) <$> seq 0 256.
Proof. vm_compute. reflexivity. Qed.

Lemma init_int64Cache_eq :
  init_int64Cache = (fun i => valueInt64 (Z.of_nat i - 128)) <$> seq 0 256.
Proof. vm_compute. reflexivity. Qed.

(** X22: after [init] the two tables hold, for every [n] from -128 to
    127, the Integer (respectively BigInteger) [n] at index [n + 128],
    and they have 256 entries, so there is no entry outside that range. *)
Theorem init_caches (n : Z) :
  - 128 <= n <= 127 ->
  init_intCache !! Z.to_nat (n + 128) = Some (valueInt n)
  /\ init_int64Cache !! Z.to_nat (n + 128) = Some (valueInt64 n)
  /\ length init_intCache = 256%nat
  /\ length init_int64Cache = 256%nat.
Proof.
  intros Hn. rewrite init_intCache_eq, init_int64Cache_eq.
  rewrite !list_lookup_fmap, !length_fmap, !length_seq.
  rewrite (lookup_seq_lt 0 256 (Z.to_nat (n + 128))) by lia. simpl.
  rewrite Z2Nat.id by lia.
  repeat split; do 2 f_equal; lia.
Qed.

Lemma init_caches_witness :
  init_intCache !! 0%nat = Some (valueInt (- 128))
  /\ init_int64Cache !! 255%nat = Some (valueInt64 127).
Proof.
  split.
  - exact (proj1 (init_caches (- 128) ltac:(lia))).
  - exact (proj1 (proj2 (init_caches 127 ltac:(lia)))).
Defined.

(** ** Booleans *)

(** X23: the numeric coercions of a Boolean agree with one another and
    lose nothing: [ToNumber] is the Integer of [ToInteger], the 32- and
    64-bit coercions equal it, [ToFloat] is its double, and the truth
    value of that Integer and of that double is the Boolean again. *)
Theorem valueBool_coercions (b : bool) :
  valueBool_ToNumber b = valueInt (valueBool_ToInteger b)
  /\ valueBool_ToInt32 b = valueBool_ToInteger b
  /\ valueBool_ToUInt32 b = valueBool_ToInteger b
  /\ valueBool_ToInt64 b = valueBool_ToInteger b
  /\ valueBool_ToFloat b = of_int (valueBool_ToInteger b)
  /\ valueInt_ToBoolean (valueBool_ToInteger b) = valueBool_ToBoolean b
  /\ valueFloat_ToBoolean (valueBool_ToFloat b) = valueBool_ToBoolean b
  /\ (forall other,
        valueBool_SameAs b other = true <-> other = valueBool b).
Proof.
  repeat split; try (destruct b; reflexivity).
  - destruct other as [| | | |o| | | | | |]; simpl; try discriminate.
    intros H. apply Bool.eqb_prop in H. now subst.
  - intros ->. simpl. apply Bool.eqb_reflx.
Qed.

(** ** Memory accounting of a slot *)

Section AccountingProperties.

Variable MemUsageContext : Type.
Variable Value_MemUsage : Value -> Acc MemUsageContext usage.
Variable Object_MemUsage : ptr -> Acc MemUsageContext usage.

Lemma to_uint64_add_l a b :
  Int.to_uint64 (Int.to_uint64 a + b) = Int.to_uint64 (a + b).
Proof. unfold Int.to_uint64. now rewrite Z.add_mod_idemp_l by lia. Qed.

(** X24: when the accounting of the stored value reports an error,
    [MemUsage] of the slot returns at once with that error and the
    value's two sizes: the getter and the setter are not visited, and
    the context is as the first call left it. *)
Theorem valueProperty_MemUsage_stops_at_error
    (pr : valueProperty) (c c' : MemUsageContext)
    (inc newInc : Z) (e : string) :
  value pr <> Value_nil ->
  Value_MemUsage (value pr) c = ((inc, newInc, Some e), c') ->
  valueProperty_MemUsage MemUsageContext Value_MemUsage Object_MemUsage
    (Some pr) c
  = ((Int.to_uint64 inc, Int.to_uint64 newInc, Some e), c').
Proof.
  intros Hv Hcall. unfold valueProperty_MemUsage, account.
  destruct (value pr) eqn:Hvalue; try (now contradiction Hv);
    rewrite Hcall; reflexivity.
Qed.

(** X25: when no accounting reports an error, [MemUsage] of a slot with
    a stored value, a getter and a setter visits the three in that
    order, each in the context the one before left, and returns the sums
    of their sizes modulo 2^64. *)
Theorem valueProperty_MemUsage_sums
    (pr : valueProperty) (g s : ptr) (c c1 c2 c3 : MemUsageContext)
    (a1 b1 a2 b2 a3 b3 : Z) :
  value pr <> Value_nil ->
  getterFunc pr = Some g ->
  setterFunc pr = Some s ->
  Value_MemUsage (value pr) c = ((a1, b1, None), c1) ->
  Object_MemUsage g c1 = ((a2, b2, None), c2) ->
  Object_MemUsage s c2 = ((a3, b3, None), c3) ->
  valueProperty_MemUsage MemUsageContext Value_MemUsage Object_MemUsage
    (Some pr) c
  = ((Int.to_uint64 (a1 + a2 + a3), Int.to_uint64 (b1 + b2 + b3), None), c3).
Proof.
  intros Hv Hg Hs H1 H2 H3. unfold valueProperty_MemUsage, account.
  rewrite Hg, Hs. simpl.
  destruct (value pr) eqn:Hvalue; try (now contradiction Hv);
    rewrite H1, H2, H3; rewrite !to_uint64_add_l;
    rewrite <- !Z.add_assoc, !to_uint64_add_l; reflexivity.
Qed.

(** X26: a nil slot pointer accounts for the size of a pointer, and a
    slot with no stored value, getter or setter for nothing; neither
    makes a call. *)
Theorem valueProperty_MemUsage_empty (pr : valueProperty) (c : MemUsageContext) :
  valueProperty_MemUsage MemUsageContext Value_MemUsage Object_MemUsage None c
  = ((SizeEmptyStruct, SizeEmptyStruct, None), c)
  /\ (value pr = Value_nil -> getterFunc pr = None -> setterFunc pr = None ->
      valueProperty_MemUsage MemUsageContext Value_MemUsage Object_MemUsage
        (Some pr) c
      = ((0, 0, None), c)).
Proof.
  split; [reflexivity|]. intros Hv Hg Hs.
  unfold valueProperty_MemUsage, account. now rewrite Hv, Hg, Hs.
Qed.

End AccountingProperties.

Lemma valueProperty_MemUsage_stops_at_error_witness :
  valueProperty_MemUsage nat (fun _ c => ((8, 16, Some "value"%string), S c))
    fail_object (Some full_slot) 0%nat
  = ((8, 16, Some "value"%string), 1%nat).
Proof.
  refine (valueProperty_MemUsage_stops_at_error nat _ fail_object
            full_slot 0%nat 1%nat 8 16 "value" _ eq_refl).
  discriminate.
Defined.

Lemma valueProperty_MemUsage_sums_witness :
  valueProperty_MemUsage nat charge_value (fun _ c => ((1, 2, None), S c))
    (Some full_slot) 0%nat
  = ((10, 20, None), 3%nat).
Proof.
  refine (valueProperty_MemUsage_sums nat charge_value _ full_slot
            2%positive 3%positive 0%nat 1%nat 2%nat 3%nat 8 16 1 2 1 2
            _ eq_refl eq_refl eq_refl eq_refl eq_refl).
  discriminate.
Defined.


(** ** The bit pattern of a double *)

Lemma land_shiftl_low (E F n : Z) :
  0 <= n -> 0 <= F < 2 ^ n -> Z.land (Z.shiftl E n) F = 0.
Proof.
  intros Hn HF. apply Z.bits_inj'. intros k Hk.
  rewrite Z.land_spec, Z.bits_0.
  destruct (Z.lt_ge_cases k n) as [Hlt|Hge].
  - now rewrite Z.shiftl_spec_low.
  - assert (HFk : Z.testbit F k = false).
    { apply Z.testbit_false; [assumption|].
      rewrite Z.div_small; [reflexivity|].
      split; [lia|]. apply Z.lt_le_trans with (2 ^ n); [lia|].
      apply Z.pow_le_mono_r; lia. }
    rewrite HFk. apply andb_false_r.
Qed.

Lemma lor_fields (E F : Z) :
  0 <= F < 2 ^ 52 -> Z.lor (Z.shiftl E 52) F = E * 2 ^ 52 + F.
Proof.
  intros HF.
  pose proof (Z.add_lor_land (Z.shiftl E 52) F) as H.
  rewrite (land_shiftl_low E F 52) in H by lia.
  rewrite Z.shiftl_mul_pow2 in * by lia. lia.
Qed.

Lemma lor_sign (s : bool) (r : Z) :
  0 <= r < 2 ^ 63 ->
  Z.lor (sign_bits s) r = (if s then 2 ^ 63 else 0) + r.
Proof.
  intros Hr. destruct s; unfold sign_bits; [|apply Z.lor_0_l].
  pose proof (Z.add_lor_land (Z.shiftl 1 63) r) as H.
  rewrite (land_shiftl_low 1 r 63) in H by lia.
  rewrite Z.shiftl_mul_pow2 in * by lia. lia.
Qed.

Lemma fields_decode (s : bool) (E F : Z) :
  0 <= E < 2 ^ 11 -> 0 <= F < 2 ^ 52 ->
  let b := Z.lor (sign_bits s) (Z.lor (Z.shiftl E 52) F) in
  Z.testbit b 63 = s
  /\ Z.land (Z.shiftr b 52) (Z.ones 11) = E
  /\ Z.land b (Z.ones 52) = F.
Proof.
  intros HE HF b. subst b.
  rewrite (lor_fields E F HF), lor_sign by lia.
  rewrite Z.testbit_odd, !Z.shiftr_div_pow2, !Z.land_ones by lia.
  set (σ := if s then 2 ^ 63 else 0).
  assert (Hσ : σ = 2 ^ 63 * (if s then 1 else 0)) by (subst σ; destruct s; lia).
  assert (Hhi : (σ + (E * 2 ^ 52 + F)) / 2 ^ 63 = if s then 1 else 0).
  { symmetry. apply Z.div_unique with (E * 2 ^ 52 + F); lia. }
  assert (Hmid : (σ + (E * 2 ^ 52 + F)) / 2 ^ 52
                 = (if s then 1 else 0) * 2 ^ 11 + E).
  { symmetry. apply Z.div_unique with F; lia. }
  repeat split.
  - rewrite Hhi. now destruct s.
  - rewrite Hmid. symmetry.
    apply Z.mod_unique with (if s then 1 else 0); lia.
  - symmetry.
    apply Z.mod_unique with ((if s then 1 else 0) * 2 ^ 11 + E); lia.
Qed.

Lemma valid_finite_fields (s : bool) (m : positive) (e : Z) :
  valid (F_finite s m e) = true ->
  (Z.pos m < 2 ^ 52 /\ e = - 1074)
  \/ (2 ^ 52 <= Z.pos m < 2 ^ 53 /\ - 1074 <= e <= 971).
Proof.
  unfold valid, bounded, canonical_mantissa, fexp, SpecFloat.emin, prec, emax.
  intros H. apply andb_true_iff in H as [H1 H2].
  apply Z.eqb_eq in H1. apply Z.leb_le in H2.
  pose proof (digits2_pos_bounds m) as [Hlo Hhi].
  set (d := Z.pos (digits2_pos m)) in *.
  assert (Hd : 0 < d) by (unfold d; lia).
  destruct (Z.le_gt_cases d 52) as [Hsmall|Hlarge].
  - left. split; [|lia].
    apply Z.lt_le_trans with (2 ^ d); [assumption|].
    apply Z.pow_le_mono_r; lia.
  - right. assert (d = 53) by lia.
    replace (d - 1) with 52 in Hlo by lia.
    replace d with 53 in Hhi by lia. lia.
Qed.

Lemma Float64frombits_Float64bits (f : float64) :
  valid f = true -> Float64frombits (Float64bits f) = f.
Proof.
  intros Hv. destruct f as [s|s|s pl|s m e].
  - destruct s; vm_compute; reflexivity.
  - destruct s; vm_compute; reflexivity.
  - simpl in Hv. apply Z.ltb_lt in Hv.
    destruct (fields_decode s 2047 (Z.pos pl)) as (H1 & H2 & H3); [lia..|].
    unfold Float64frombits, Float64bits. cbv zeta in *.
    rewrite H1, H2, H3. reflexivity.
  - destruct (valid_finite_fields s m e Hv) as [[Hm He]|[Hm He]];
      unfold Float64bits.
    + destruct (Z.ltb_spec (Z.pos m) (2 ^ 52)); [|lia].
      destruct (fields_decode s 0 (Z.pos m)) as (H1 & H2 & H3); [lia..|].
      cbv zeta in *.
      change (Z.lor (Z.shiftl 0 52) (Z.pos m)) with (Z.pos m) in *.
      unfold Float64frombits. cbv zeta.
      rewrite H1, H2, H3. subst e. reflexivity.
    + destruct (Z.ltb_spec (Z.pos m) (2 ^ 52)); [lia|].
      destruct (fields_decode s (e + 1075) (Z.pos m - 2 ^ 52))
        as (H1 & H2 & H3); [lia..|].
      cbv zeta in *. unfold Float64frombits. cbv zeta.
      rewrite H1, H2, H3.
      destruct (Z.eqb_spec (e + 1075) 0); [lia|].
      destruct (Z.eqb_spec (e + 1075) 2047); [lia|].
      replace (Z.pos m - 2 ^ 52 + 2 ^ 52) with (Z.pos m) by lia.
      f_equal. lia.
Qed.


(** ** The hash of the numeric kinds, in full *)

Lemma valueFloat_hash_value (f : float64) :
  valueFloat_hash f = match f with F_zero _ => 0 | _ => Float64bits f end.
Proof.
  unfold valueFloat_hash. destruct f as [s|s|s pl|s m e]; try reflexivity.
  - now destruct s.
  - now destruct s.
Qed.

Lemma Float64bits_zero_inv (f : float64) :
  valid f = true -> Float64bits f = 0 -> f = zero.
Proof.
  intros Hv H. rewrite <- (Float64frombits_Float64bits f Hv).
  rewrite H. reflexivity.
Qed.

(** C1 (as the code has it): the hash of a Float is 0 for the two zeros
    and for every other Float [math.Float64bits], the bit pattern the
    double is decoded from, so two valid Floats with one hash are the same
    double or the two zeros; the hash of an Integer, and of a BigInteger,
    is the integer modulo 2^64.  Hence for an Integer or Float [a] and a
    numeric [b] with [a.StrictEquals(b)] the two hashes agree when both
    are Floats (the pair +0.0, -0.0 included), when both are exact
    integers, or when both are zero; nothing of the kind holds of a
    non-zero Integer against a Float. *)
Theorem numeric_hash_agree (a b : Value) :
  (forall f,
      valueFloat_hash f = match f with F_zero _ => 0 | _ => Float64bits f end)
  /\ (forall f, valid f = true -> Float64frombits (Float64bits f) = f)
  /\ (forall f g,
        valid f = true -> valid g = true ->
        valueFloat_hash f = valueFloat_hash g ->
        f = g \/ (exists s s', f = F_zero s /\ g = F_zero s'))
  /\ (forall i,
        valueInt_hash i = i mod 2 ^ 64 /\ valueInt64_hash i = i mod 2 ^ 64)
  /\ (numeric_StrictEquals a b = Some true ->
      same_family a b = true \/ (is_zero a = true /\ is_zero b = true) ->
      numeric_hash a = numeric_hash b).
Proof.
  split; [exact valueFloat_hash_value|].
  split; [exact Float64frombits_Float64bits|].
  split; [|split; [intros i; split; reflexivity | apply hash_agree_cases]].
  intros f g Hf Hg. rewrite !valueFloat_hash_value.
  destruct f as [s|s|s pl|s m e], g as [s'|s'|s' pl'|s' m' e'];
    intros H;
    first
      [ right; eexists _, _; split; reflexivity
      | symmetry in H; apply (Float64bits_zero_inv _ Hg) in H;
        discriminate H
      | apply (Float64bits_zero_inv _ Hf) in H; discriminate H
      | left;
        rewrite <- (Float64frombits_Float64bits _ Hf),
                <- (Float64frombits_Float64bits _ Hg);
        now rewrite H ].
Qed.

Lemma numeric_hash_agree_witness :
  numeric_hash (valueInt 5) = numeric_hash (valueInt64 5)
  /\ numeric_hash (valueFloat zero) = numeric_hash (valueFloat negativeZero)
  /\ numeric_hash (valueFloat negativeZero) = numeric_hash (valueInt 0)
  /\ Float64frombits (Float64bits (of_int 5)) = of_int 5
  /\ Float64frombits 4617315517961601024 = of_int 5.
Proof.
  split; [|split; [|split; [|split]]].
  - apply (proj2 (proj2 (proj2 (proj2
             (numeric_hash_agree (valueInt 5) (valueInt64 5))))));
      [reflexivity | left; reflexivity].
  - apply (proj2 (proj2 (proj2 (proj2
             (numeric_hash_agree (valueFloat zero)
                (valueFloat negativeZero))))));
      [reflexivity | left; reflexivity].
  - apply (proj2 (proj2 (proj2 (proj2
             (numeric_hash_agree (valueFloat negativeZero) (valueInt 0))))));
      [reflexivity | right; split; reflexivity].
  - apply (proj1 (proj2 (numeric_hash_agree Value_nil Value_nil))).
    reflexivity.
  - vm_compute. reflexivity.
Defined.
